(** * Bounty hunter agent: a shallow embedding of [agent.ts],
      [bounty-client.ts], [types.ts] and the configuration part of [index.ts].

    The TypeScript sources are asynchronous, stateful and talk to two remote
    services.  They are embedded as follows.

    - A JavaScript [number] is an IEEE 754 binary64 value, taken from the
      Standard Library's executable specification of floats ([spec_float] at
      precision 53, maximal exponent 1024).
    - The host functions [Number] (on strings) and [JSON.parse] are not part
      of the repository; they are the two fields of [Host] and every
      definition is parametric in them.
    - The remote services are a [Remote]: for each endpoint, a function from
      everything that happened so far to the answer that [fetch] gets.
    - A [Promise A] is a computation over a [World] (the agent's [AgentState]
      and the history of outside effects) that either returns or throws; the
      state reached when an exception is thrown is kept, as in JavaScript.
    - Strings are sequences of bytes.  The sources look inside a string only
      for braces (the reply of the oracle), which are single bytes in every
      string, and for the first characters of the wallet address: there the
      bytes are the UTF-16 units that [slice] counts when the address is
      made of ASCII characters, which the statement about it assumes.
    - Console output is not modelled. *)

From Stdlib Require Import ZArith String Ascii List Lia.
From Stdlib Require Import Floats.SpecFloat.
From stdpp Require Import base strings gmap sets list pretty.

Local Open Scope Z_scope.

(** ** JavaScript values *)

Module JS.

(** [number]: binary64. *)
Definition number : Type := spec_float.

Definition NaN : number := S754_nan.

(** An integer literal, rounded to the nearest binary64 (ties to even). *)
Definition int (z : Z) : number := binary_normalize 53 1024 z 0 false.

(** The literal [0.6]: the binary64 nearest to six tenths. *)
Definition lit_0_6 : number := S754_finite false 5404319552844595 (-53).

(** The literal [1e6]. *)
Definition lit_1e6 : number := int 1000000.

Definition div (x y : number) : number := SFdiv 53 1024 x y.
Definition mul (x y : number) : number := SFmul 53 1024 x y.

(** [x > y] and [x >= y]; both are false as soon as one side is NaN. *)
Definition gt (x y : number) : bool := SFltb y x.
Definition ge (x y : number) : bool := SFleb y x.

(** ToBoolean on numbers: [+0], [-0] and [NaN] are falsy. *)
Definition truthy (x : number) : bool :=
    match x with
    | S754_zero _ | S754_nan => false
    | _ => true
    end.

(** ToBoolean on strings: only the empty string is falsy. *)
Definition nonempty (s : string) : bool :=
    match s with
    | EmptyString => false
    | String _ _ => true
    end.

(** [x || d] for an optional string, an optional number, an optional
    array; [x ?? d] for an optional boolean. *)
Definition or_string (x : option string) (d : string) : string :=
    match x with
    | Some s => if nonempty s then s else d
    | None => d
    end.

Definition or_number (x : option number) (d : number) : number :=
    match x with
    | Some n => if truthy n then n else d
    | None => d
    end.

Definition or_array {A : Type} (x : option (list A)) (d : list A) : list A :=
    match x with
    | Some l => l
    | None => d
    end.

Definition nullish_bool (x : option bool) (d : bool) : bool :=
    match x with
    | Some b => b
    | None => d
    end.

(** [Array.prototype.join] on an array of strings. *)
Definition join (sep : string) (l : list string) : string := String.concat sep l.

(** [s.slice(0, n)] on a string of ASCII characters, whose bytes are the
    UTF-16 units that [slice] counts. *)
Definition slice0 (n : nat) (s : string) : string := String.substring 0 n s.

Definition is_open (c : ascii) : bool := Ascii.eqb c "{"%char.
Definition is_close (c : ascii) : bool := Ascii.eqb c "}"%char.

(** The suffix of [s] that starts at its first opening brace. *)
Fixpoint from_first_open (s : string) : option string :=
    match s with
    | EmptyString => None
    | String c s' => if is_open c then Some s else from_first_open s'
    end.

(** The longest prefix of [s] that ends in a closing brace. *)
Fixpoint upto_last_close (s : string) : option string :=
    match s with
    | EmptyString => None
    | String c s' =>
        match upto_last_close s' with
        | Some r => Some (String c r)
        | None => if is_close c then Some (String c EmptyString) else None
        end
    end.

(** [s.match(/\{[\s\S]*\}/)]: the leftmost match of an opening brace, then
    as many characters of any kind as possible, then a closing brace.
    [None] is JavaScript's [null]; [Some m] is element 0 of the match. *)
Definition match_object (s : string) : option string :=
    match from_first_open s with
    | Some (String c rest) =>
        match upto_last_close rest with
        | Some r => Some (String c r)
        | None => None
        end
    | _ => None
    end.

End JS.

Abbreviation number := JS.number.

(** ** The data model of [types.ts] *)

Module Bounty.
Record t : Type := mk {
    id : string;
    title : string;
    description : string;
    status : string;
    reward : string;
    rewardFormatted : string;
    tags : list string;
    claimedBy : option string;
    createdAt : option string;
    completedAt : option string;
  }.
End Bounty.
Abbreviation Bounty := Bounty.t.

Module AgentConfig.
Record t : Type := mk {
    openRouterApiKey : string;
    walletAddress : string;
    model : option string;
    skills : option (list string);
    maxReward : option number;
    apiBase : option string;
    dryRun : option bool;
    pollInterval : option number;
  }.
End AgentConfig.
Abbreviation AgentConfig := AgentConfig.t.

(** [Required<AgentConfig>]: the configuration after the constructor has
    filled in the defaults. *)
Module Config.
Record t : Type := mk {
    openRouterApiKey : string;
    walletAddress : string;
    model : string;
    skills : list string;
    maxReward : number;
    apiBase : string;
    dryRun : bool;
    pollInterval : number;
  }.
End Config.
Abbreviation Config := Config.t.

Module EvaluationResult.
Record t : Type := mk {
    suitable : bool;
    confidence : number;
    reasoning : string;
    estimatedEffort : string;
  }.
End EvaluationResult.
Abbreviation EvaluationResult := EvaluationResult.t.

Module SubmissionResult.
Record t : Type := mk {
    bountyId : string;
    submission : string;
    proof : string;
    status : string;
  }.
End SubmissionResult.
Abbreviation SubmissionResult := SubmissionResult.t.

Module AgentState.
Record t : Type := mk {
    claimedBounties : gset string;
    completedBounties : gset string;
    skippedBounties : gset string;
    isRunning : bool;
  }.
End AgentState.
Abbreviation AgentState := AgentState.t.

Inductive Role : Type := system | user | assistant.

Module OpenRouterMessage.
Record t : Type := mk { role : Role; content : string }.
End OpenRouterMessage.
Abbreviation OpenRouterMessage := OpenRouterMessage.t.

(** [OpenRouterResponse]: [choices] is an array of [{message: {content}}];
    a choice is represented by its message content. *)
Module OpenRouterResponse.
Record t : Type := mk { choices : list string }.
End OpenRouterResponse.
Abbreviation OpenRouterResponse := OpenRouterResponse.t.

(** The [{status: string}] body of a claim or submit answer. *)
Module StatusBody.
Record t : Type := mk { status : string }.
End StatusBody.
Abbreviation StatusBody := StatusBody.t.

(** ** Effects: the outside world and promises *)

(** What a [fetch] sends.  [GetBounties base] is [GET base/bounties];
    [PostClaim base id address] is [POST base/bounties/id/claim] with body
    [{address}]; [PostSubmit base id address submission proof] is
    [POST base/bounties/id/submit]; [PostChat key model messages] is the
    chat completion request with its bearer credential. *)
Inductive Request : Type :=
| GetBounties (base : string)
| PostClaim (base id address : string)
| PostSubmit (base id address submission proof : string)
| PostChat (key model : string) (messages : list OpenRouterMessage).

(** An effect visible outside the agent: a request, or a [setTimeout] wait. *)
Inductive Event : Type :=
| Fetch (r : Request)
| SetTimeout (ms : number).

(** A settled promise: a value, or an exception with its [message]. *)
Inductive Outcome (A : Type) : Type :=
| Returns (a : A)
| Throws (message : string).
Arguments Returns {A} a.
Arguments Throws {A} message.

(** The [Response] object of a [fetch] that did not reject; [json] is what
    [res.json()] gives, which throws on a malformed body. *)
Module Response.
Record t (T : Type) : Type := mk {
    ok : bool;
    status : N;
    text : string;
    json : Outcome T;
  }.
Arguments mk {T} ok status text json.
Arguments ok {T} _.
Arguments status {T} _.
Arguments text {T} _.
Arguments json {T} _.
End Response.
Abbreviation Response := Response.t.

(** The remote side.  Each field receives the history, newest event first
    and the current request at its head, and gives the outcome of [fetch]:
    a response, or a rejection (network failure).  [stop_requested] tells
    whether the owner of the agent calls [stop()] during a wait of the loop. *)
Module Remote.
Record t : Type := mk {
    bounties : list Event -> Outcome (Response (list Bounty));
    mutation : list Event -> Outcome (Response StatusBody);
    completion : list Event -> Outcome (Response OpenRouterResponse);
    stop_requested : list Event -> bool;
  }.
End Remote.
Abbreviation Remote := Remote.t.

(** The two host functions the agent calls: [Number] on a string, and
    [JSON.parse] followed by the cast to [EvaluationResult]. *)
Module Host.
Record t : Type := mk {
    Number : string -> number;
    JSON_parse : string -> Outcome EvaluationResult;
  }.
End Host.
Abbreviation Host := Host.t.

Module World.
Record t : Type := mk {
    state : AgentState;
    history : list Event;
  }.
End World.
Abbreviation World := World.t.

Definition Promise (A : Type) : Type := World -> Outcome A * World.

Definition resolve {A : Type} (a : A) : Promise A := fun w => (Returns a, w).

Definition throw {A : Type} (message : string) : Promise A :=
  fun w => (Throws message, w).

Definition settle {A : Type} (o : Outcome A) : Promise A := fun w => (o, w).

(** [await p] followed by the rest of the function body. *)
Definition await {A B : Type} (p : Promise A) (k : A -> Promise B) : Promise B :=
  fun w =>
    match p w with
    | (Returns a, w') => k a w'
    | (Throws m, w') => (Throws m, w')
    end.

(** [try { body } catch (err) { handler(err.message) }]. *)
Definition try_catch {A : Type} (body : Promise A) (handler : string -> Promise A)
  : Promise A :=
  fun w =>
    match body w with
    | (Returns a, w') => (Returns a, w')
    | (Throws m, w') => handler m w'
    end.

Notation "'let*' x ':=' p 'in' k" := (await p (fun x => k))
  (at level 10, x pattern, p at level 100, k at level 200).
Notation "p ';;' k" := (await p (fun _ => k))
  (at level 100, k at level 200, right associativity).

(** [for (const x of l) body(x)], where [body] returns for [continue]. *)
Fixpoint for_of {A : Type} (l : list A) (body : A -> Promise unit) : Promise unit :=
  match l with
  | [] => resolve tt
  | x :: l' => body x ;; for_of l' body
  end.

Definition get_state : Promise AgentState := fun w => (Returns (World.state w), w).

Definition modify_state (f : AgentState -> AgentState) : Promise unit :=
  fun w => (Returns tt, World.mk (f (World.state w)) (World.history w)).

(** [fetch]: the request is recorded, the remote side answers. *)
Definition fetch {T : Type} (answer : list Event -> Outcome (Response T))
    (r : Request) : Promise (Response T) :=
  fun w =>
    let h := Fetch r :: World.history w in
    (answer h, World.mk (World.state w) h).

(** The three sets of [AgentState], and the updates the agent performs. *)
Definition claimed (w : World) : gset string := AgentState.claimedBounties (World.state w).
Definition completed (w : World) : gset string := AgentState.completedBounties (World.state w).
Definition skipped (w : World) : gset string := AgentState.skippedBounties (World.state w).

Definition tracked (w : World) : gset string := claimed w ∪ completed w ∪ skipped w.

Definition add_claimed (id : string) (s : AgentState) : AgentState :=
  AgentState.mk ({[id]} ∪ AgentState.claimedBounties s) (AgentState.completedBounties s)
    (AgentState.skippedBounties s) (AgentState.isRunning s).

Definition add_completed (id : string) (s : AgentState) : AgentState :=
  AgentState.mk (AgentState.claimedBounties s) ({[id]} ∪ AgentState.completedBounties s)
    (AgentState.skippedBounties s) (AgentState.isRunning s).

Definition add_skipped (id : string) (s : AgentState) : AgentState :=
  AgentState.mk (AgentState.claimedBounties s) (AgentState.completedBounties s)
    ({[id]} ∪ AgentState.skippedBounties s) (AgentState.isRunning s).

Definition set_running (b : bool) (s : AgentState) : AgentState :=
  AgentState.mk (AgentState.claimedBounties s) (AgentState.completedBounties s)
    (AgentState.skippedBounties s) b.

(** ** [bounty-client.ts] and [agent.ts] *)

Definition DEFAULT_API_BASE : string := "https://bounty.owockibot.xyz".
Definition DEFAULT_MODEL : string := "anthropic/claude-sonnet-4".

Definition nl : string := String "010"%char EmptyString.
Definition dq : string := String "034"%char EmptyString.

(** [new BountyAgent(config)]: the resolved configuration and the initial
    state. *)
Definition constructor (config : AgentConfig) : Config :=
  {| Config.openRouterApiKey := AgentConfig.openRouterApiKey config;
     Config.walletAddress := AgentConfig.walletAddress config;
     Config.model := JS.or_string (AgentConfig.model config) DEFAULT_MODEL;
     Config.skills := JS.or_array (AgentConfig.skills config) [];
     Config.maxReward := JS.or_number (AgentConfig.maxReward config) (JS.int 100);
     Config.apiBase := JS.or_string (AgentConfig.apiBase config) DEFAULT_API_BASE;
     Config.dryRun := JS.nullish_bool (AgentConfig.dryRun config) false;
     Config.pollInterval := JS.or_number (AgentConfig.pollInterval config) (JS.int 300000) |}.

Definition initial_state : AgentState :=
  {| AgentState.claimedBounties := ∅;
     AgentState.completedBounties := ∅;
     AgentState.skippedBounties := ∅;
     AgentState.isRunning := false |}.

Definition initial_world : World := World.mk initial_state [].

(** The two answers [evaluateBounty] gives when it cannot use the reply. *)
Definition parse_failure : EvaluationResult :=
  {| EvaluationResult.suitable := false;
     EvaluationResult.confidence := JS.int 0;
     EvaluationResult.reasoning := "Failed to parse AI evaluation";
     EvaluationResult.estimatedEffort := "high" |}.

Definition evaluation_error (message : string) : EvaluationResult :=
  {| EvaluationResult.suitable := false;
     EvaluationResult.confidence := JS.int 0;
     EvaluationResult.reasoning := "Evaluation error: " +:+ message;
     EvaluationResult.estimatedEffort := "high" |}.

Definition evaluation_prompt (skills : list string) (bounty : Bounty) : string :=
  String.concat EmptyString
    [ "You are an AI agent evaluating whether to work on a bounty. Analyze the bounty and determine if the given skills are sufficient.";
      nl; nl;
      "Agent skills: ";
      JS.or_string (Some (JS.join ", " skills)) "general software development";
      nl; nl;
      "Bounty details:"; nl;
      "- Title: "; Bounty.title bounty; nl;
      "- Description: "; JS.or_string (Some (Bounty.description bounty)) "No description"; nl;
      "- Tags: "; JS.join ", " (Bounty.tags bounty); nl;
      "- Reward: "; Bounty.rewardFormatted bounty; nl; nl;
      "Respond in JSON format only:"; nl;
      "{"; nl;
      "  "; dq; "suitable"; dq; ": true/false,"; nl;
      "  "; dq; "confidence"; dq; ": 0.0-1.0,"; nl;
      "  "; dq; "reasoning"; dq; ": "; dq; "brief explanation"; dq; ","; nl;
      "  "; dq; "estimatedEffort"; dq; ": "; dq; "low/medium/high"; dq; nl;
      "}" ].

Definition evaluation_messages (skills : list string) (bounty : Bounty)
  : list OpenRouterMessage :=
  [ OpenRouterMessage.mk system
      "You are an AI agent that evaluates bounty suitability. Always respond with valid JSON.";
    OpenRouterMessage.mk user (evaluation_prompt skills bounty) ].

Definition work_plan_messages (bounty : Bounty) : list OpenRouterMessage :=
  [ OpenRouterMessage.mk system
      "You are an AI agent completing bounty work. Provide a clear, detailed description of the work you would do to complete this bounty.";
    OpenRouterMessage.mk user
      (String.concat EmptyString
         [ "Generate a detailed work completion plan for this bounty:"; nl; nl;
           "Title: "; Bounty.title bounty; nl;
           "Description: ";
           JS.or_string (Some (Bounty.description bounty)) "No description"; nl;
           "Tags: "; JS.join ", " (Bounty.tags bounty); nl;
           "Reward: "; Bounty.rewardFormatted bounty; nl; nl;
           "Describe what you built/completed and how it meets the requirements. Be specific and professional." ]) ].

(** The proof reference built in step 5 of [runCycle]. *)
Definition proof_reference (walletAddress id : string) : string :=
  "https://github.com/" +:+ JS.slice0 8 walletAddress +:+ "/bounty-" +:+ id.

(** What a call of [startLoop] amounts to: the agent was running already and
    the call returned at once, the loop has left its [while], or the
    iterations granted to the model are used up and the loop would go on. *)
Inductive LoopStatus : Type := AlreadyRunning | Exited | Continues.

(** The text [chat] returns for a response: the content of the first choice,
    or the empty string when there is none. *)
Definition first_content (data : OpenRouterResponse) : string :=
  match OpenRouterResponse.choices data with
  | content :: _ => content
  | [] => EmptyString
  end.

(** [new BountyClient(apiBase)]: the base address the client keeps. *)
Definition BountyClient (apiBase : option string) : string :=
  JS.or_string apiBase DEFAULT_API_BASE.

Section Agent.

Context (host : Host) (remote : Remote) (config : Config).

(** *** BountyClient *)

(** [this.client = new BountyClient(this.config.apiBase)] *)
Definition client : string := BountyClient (Some (Config.apiBase config)).

(** [request<T>(path, options)] *)
Definition request {T : Type} (answer : list Event -> Outcome (Response T))
    (r : Request) : Promise T :=
  let* res := fetch answer r in
  if negb (Response.ok res)
  then throw ("Bounty API " +:+ pretty (Response.status res) +:+ ": " +:+ Response.text res)
  else settle (Response.json res).

Definition listBounties : Promise (list Bounty) :=
  let* bounties := request (Remote.bounties remote) (GetBounties client) in
  resolve (List.filter (fun b => JS.nonempty (Bounty.title b)) bounties).

Definition listOpenBounties : Promise (list Bounty) :=
  let* bounties := listBounties in
  resolve (List.filter (fun b => String.eqb (Bounty.status b) "open") bounties).

Definition client_claimBounty (id walletAddress : string) : Promise StatusBody :=
  request (Remote.mutation remote) (PostClaim client id walletAddress).

Definition client_submitBounty (id walletAddress submission proof : string)
  : Promise StatusBody :=
  request (Remote.mutation remote)
    (PostSubmit client id walletAddress submission proof).

(** *** BountyAgent *)

Definition chat (messages : list OpenRouterMessage) : Promise string :=
  let* res := fetch (Remote.completion remote)
                (PostChat (Config.openRouterApiKey config) (Config.model config) messages) in
  if negb (Response.ok res)
  then throw ("OpenRouter API " +:+ pretty (Response.status res) +:+ ": " +:+ Response.text res)
  else
    let* data := settle (Response.json res) in
    resolve (first_content data).

(** The test of [discoverBounties]'s filter. *)
Definition unprocessed (s : AgentState) (b : Bounty) : bool :=
  negb (bool_decide (Bounty.id b ∈ AgentState.claimedBounties s))
  && negb (bool_decide (Bounty.id b ∈ AgentState.completedBounties s))
  && negb (bool_decide (Bounty.id b ∈ AgentState.skippedBounties s)).

Definition discoverBounties : Promise (list Bounty) :=
  let* bounties := listOpenBounties in
  let* s := get_state in
  resolve (List.filter (unprocessed s) bounties).

Definition evaluateBounty (bounty : Bounty) : Promise EvaluationResult :=
  try_catch
    (let* response := chat (evaluation_messages (Config.skills config) bounty) in
     match JS.match_object response with
     | None => resolve parse_failure
     | Some jsonMatch => settle (Host.JSON_parse host jsonMatch)
     end)
    (fun message => resolve (evaluation_error message)).

Definition claimBounty (bountyId : string) : Promise bool :=
  if Config.dryRun config
  then modify_state (add_claimed bountyId) ;; resolve true
  else
    try_catch
      (let* result := client_claimBounty bountyId (Config.walletAddress config) in
       modify_state (add_claimed bountyId) ;;
       resolve true)
      (fun _ => resolve false).

Definition generateWorkPlan (bounty : Bounty) : Promise string :=
  chat (work_plan_messages bounty).

Definition submitWork (bountyId submission proof : string) : Promise SubmissionResult :=
  if Config.dryRun config
  then
    modify_state (add_completed bountyId) ;;
    resolve (SubmissionResult.mk bountyId submission proof "dry_run")
  else
    try_catch
      (let* result := client_submitBounty bountyId (Config.walletAddress config)
                        submission proof in
       modify_state (add_completed bountyId) ;;
       resolve (SubmissionResult.mk bountyId submission proof (StatusBody.status result)))
      (fun message =>
         resolve (SubmissionResult.mk bountyId submission proof ("error: " +:+ message))).

(** Step 2 of [runCycle]: the loop over [bounties.slice(0, 5)], with the
    array [evaluations] it pushes to. *)
Fixpoint evaluate_loop (batch : list Bounty)
    (evaluations : list (Bounty * EvaluationResult))
  : Promise (list (Bounty * EvaluationResult)) :=
  match batch with
  | [] => resolve evaluations
  | bounty :: rest =>
      let* evaluation := evaluateBounty bounty in
      (if negb (EvaluationResult.suitable evaluation)
       then modify_state (add_skipped (Bounty.id bounty))
       else resolve tt) ;;
      evaluate_loop rest (evaluations ++ [(bounty, evaluation)])
  end.

(** The test of the filter that opens step 3. *)
Definition confident (e : Bounty * EvaluationResult) : bool :=
  EvaluationResult.suitable (snd e)
  && JS.ge (EvaluationResult.confidence (snd e)) JS.lit_0_6.

(** [Number(bounty.reward || 0) / 1e6] *)
Definition display_reward (bounty : Bounty) : number :=
  JS.div
    (if JS.nonempty (Bounty.reward bounty)
     then Host.Number host (Bounty.reward bounty)
     else JS.int 0)
    JS.lit_1e6.

(** [reward > this.config.maxReward] *)
Definition exceeds_ceiling (bounty : Bounty) : bool :=
  JS.gt (display_reward bounty) (Config.maxReward config).

(** Claim, then steps 4 and 5, for one bounty that passed the ceiling. *)
Definition claim_work_submit (bounty : Bounty) : Promise unit :=
  let* claimed := claimBounty (Bounty.id bounty) in
  if negb claimed then resolve tt
  else
    let* workPlan := generateWorkPlan bounty in
    let proof := proof_reference (Config.walletAddress config) (Bounty.id bounty) in
    submitWork (Bounty.id bounty) workPlan proof ;;
    resolve tt.

(** The body of the loop over [suitable]. *)
Definition claim_body (e : Bounty * EvaluationResult) : Promise unit :=
  if exceeds_ceiling (fst e) then resolve tt else claim_work_submit (fst e).

Definition runCycle : Promise unit :=
  let* bounties := discoverBounties in
  if Nat.eqb (length bounties) 0 then resolve tt
  else
    let* evaluations := evaluate_loop (firstn 5 bounties) [] in
    let suitable := List.filter confident evaluations in
    for_of suitable claim_body.

(** [stop()] *)
Definition stop : Promise unit := modify_state (set_running false).

(** [await new Promise((resolve) => setTimeout(resolve, ms))]; this is where
    a [stop()] of the agent's owner takes effect for the loop. *)
Definition sleep (ms : number) : Promise unit :=
  fun w =>
    let h := SetTimeout ms :: World.history w in
    (if Remote.stop_requested remote h then stop else resolve tt)
      (World.mk (World.state w) h).

(** The [while (this.state.isRunning)] loop of [startLoop], cut after [fuel]
    iterations. *)
Fixpoint loop (fuel : nat) : Promise LoopStatus :=
  let* s := get_state in
  if negb (AgentState.isRunning s) then resolve Exited
  else
    match fuel with
    | O => resolve Continues
    | S fuel' =>
        try_catch runCycle (fun _ => resolve tt) ;;
        sleep (Config.pollInterval config) ;;
        loop fuel'
    end.

Definition startLoop (fuel : nat) : Promise LoopStatus :=
  let* s := get_state in
  if AgentState.isRunning s then resolve AlreadyRunning
  else modify_state (set_running true) ;; loop fuel.

End Agent.

(** *** The configuration built by [main] in [index.ts] *)

Module Env.
Record t : Type := mk {
    MODEL : option string;
    DRY_RUN : option string;
    MAX_REWARD : option string;
    POLL_INTERVAL : option string;
  }.
End Env.
Abbreviation Env := Env.t.

(** [Number(process.env.X)]: an unset variable is [undefined], whose number
    is NaN. *)
Definition Number_of_env (host : Host) (x : option string) : number :=
  match x with
  | Some s => Host.Number host s
  | None => JS.NaN
  end.

(** The argument of [new BountyAgent] in [main]; [apiKey], [wallet] and
    [skills] are the values [main] has computed before. *)
Definition main_config (host : Host) (env : Env) (apiKey wallet : string)
    (skills : list string) : AgentConfig :=
  {| AgentConfig.openRouterApiKey := apiKey;
     AgentConfig.walletAddress := wallet;
     AgentConfig.model := Some (JS.or_string (Env.MODEL env) "anthropic/claude-sonnet-4");
     AgentConfig.skills := Some skills;
     AgentConfig.maxReward :=
       Some (JS.or_number (Some (Number_of_env host (Env.MAX_REWARD env))) (JS.int 100));
     AgentConfig.apiBase := None;
     AgentConfig.dryRun :=
       Some (match Env.DRY_RUN env with
             | Some s => String.eqb s "true"
             | None => false
             end);
     AgentConfig.pollInterval :=
       Some (JS.mul
               (JS.or_number (Some (Number_of_env host (Env.POLL_INTERVAL env))) (JS.int 300))
               (JS.int 1000)) |}.

(** ** The extraction rule in the words of the specification

    "The first balanced-looking [{...}] span": the leftmost opening brace
    whose matching closing brace exists, up to that closing brace. *)

(** [balanced_rest depth s]: the prefix of [s] that closes [depth] open
    braces. *)
Fixpoint balanced_rest (depth : nat) (s : string) : option string :=
  match s with
  | EmptyString => None
  | String c s' =>
      if JS.is_open c then option_map (String c) (balanced_rest (S depth) s')
      else if JS.is_close c then
        match depth with
        | O => None
        | S O => Some (String c EmptyString)
        | S d => option_map (String c) (balanced_rest d s')
        end
      else option_map (String c) (balanced_rest depth s')
  end.

Fixpoint first_balanced_span (s : string) : option string :=
  match s with
  | EmptyString => None
  | String c s' =>
      if JS.is_open c then
        match balanced_rest 1 s' with
        | Some r => Some (String c r)
        | None => first_balanced_span s'
        end
      else first_balanced_span s'
  end.

(** ** Concrete hosts, remotes and bounties for the scenarios *)

Module Sample.

Definition digit (c : ascii) : option Z :=
  let n := Z.of_nat (nat_of_ascii c) in
  if (48 <=? n) && (n <=? 57) then Some (n - 48) else None.

Fixpoint digits (s : string) (acc : Z) : option Z :=
  match s with
  | EmptyString => Some acc
  | String c s' =>
      match digit c with
      | Some d => digits s' (10 * acc + d)
      | None => None
      end
  end.

(** The host's [Number] on the reward strings of the scenarios: a string of
    decimal digits is that integer, the empty string is 0, and the other
    strings used below ("plenty") are no numeric literal. *)
Definition Number (s : string) : number :=
  match digits s 0 with
  | Some z => JS.int z
  | None => JS.NaN
  end.

Definition accept_json : string :=
  String.concat dq
    [ "{"; "suitable"; ":true,"; "confidence"; ":0.8,"; "reasoning"; ":"; "fits"; ",";
      "estimatedEffort"; ":"; "low"; "}" ].

Definition reject_json : string :=
  String.concat dq
    [ "{"; "suitable"; ":false,"; "confidence"; ":0.9,"; "reasoning"; ":"; "no fit"; ",";
      "estimatedEffort"; ":"; "high"; "}" ].

Definition accept : EvaluationResult :=
  EvaluationResult.mk true (JS.div (JS.int 8) (JS.int 10)) "fits" "low".

Definition reject : EvaluationResult :=
  EvaluationResult.mk false (JS.div (JS.int 9) (JS.int 10)) "no fit" "high".

(** The host's [JSON.parse] on the texts of the scenarios: the two objects
    above parse, the other texts used below are no JSON text. *)
Definition JSON_parse (s : string) : Outcome EvaluationResult :=
  if String.eqb s accept_json then Returns accept
  else if String.eqb s reject_json then Returns reject
  else Throws "Unexpected token".

Definition host : Host := Host.mk Number JSON_parse.

Definition answer {T : Type} (data : T) : Outcome (Response T) :=
  Returns (Response.mk true 200%N EmptyString (Returns data)).

Definition says (content : string) : Outcome (Response OpenRouterResponse) :=
  answer (OpenRouterResponse.mk [content]).

Definition is_chat (e : Event) : bool :=
  match e with
  | Fetch (PostChat _ _ _) => true
  | _ => false
  end.

(** A remote that always lists [listing], accepts every claim and submit,
    answers the n-th chat request with the n-th element of [replies] (and
    with [otherwise] when there is none), and never asks to stop. *)
Definition scripted (listing : list Bounty)
    (replies : list (Outcome (Response OpenRouterResponse)))
    (otherwise : Outcome (Response OpenRouterResponse)) : Remote :=
  {| Remote.bounties := fun _ => answer listing;
     Remote.mutation := fun _ => answer (StatusBody.mk "accepted");
     Remote.completion :=
       fun h => nth (length (List.filter is_chat (tl h))) replies otherwise;
     Remote.stop_requested := fun _ => false |}.

Definition open_bounty (id title reward : string) : Bounty :=
  Bounty.mk id title EmptyString "open" reward EmptyString [] None None None.

Definition wallet : string := "0x1234567890abcdef".

Definition config (maxReward : Z) (dryRun : bool) : Config :=
  constructor
    (AgentConfig.mk "key" wallet None None (Some (JS.int maxReward)) None (Some dryRun) None).

End Sample.

(** ** Vocabulary of the statements *)

(** No character of [s] satisfies [p]. *)
Fixpoint lacks (p : ascii -> bool) (s : string) : bool :=
  match s with
  | EmptyString => true
  | String c s' => negb (p c) && lacks p s'
  end.

(** The request [evaluateBounty] sends for [bounty]. *)
Definition evaluation_request (config : Config) (bounty : Bounty) : Request :=
  PostChat (Config.openRouterApiKey config) (Config.model config)
    (evaluation_messages (Config.skills config) bounty).

(** The request [generateWorkPlan] sends for [bounty]. *)
Definition work_plan_request (config : Config) (bounty : Bounty) : Request :=
  PostChat (Config.openRouterApiKey config) (Config.model config)
    (work_plan_messages bounty).

(** The world after the request [r] has been sent. *)
Definition sent (r : Request) (w : World) : World :=
  World.mk (World.state w) (Fetch r :: World.history w).

(** A fetch that succeeded with the JSON body [data]. *)
Definition accepted {T : Type} (o : Outcome (Response T)) (data : T) : Prop :=
  exists res, o = Returns res /\ Response.ok res = true /\ Response.json res = Returns data.

(** [Unusable host answer reasoning]: the answer to an evaluation request
    cannot be turned into a judgment, and [reasoning] says why.  The call
    failed ([fetch] rejected, the status was not 2xx, the body was no JSON),
    or the reply text has no span from an opening to a closing brace, or
    that span is not JSON. *)
Inductive Unusable (host : Host)
  : Outcome (Response OpenRouterResponse) -> string -> Prop :=
| unusable_rejected m :
    Unusable host (Throws m) ("Evaluation error: " +:+ m)
| unusable_status res :
    Response.ok res = false ->
    Unusable host (Returns res)
      ("Evaluation error: " +:+
       ("OpenRouter API " +:+ pretty (Response.status res) +:+ ": " +:+ Response.text res))
| unusable_body res m :
    Response.ok res = true ->
    Response.json res = Throws m ->
    Unusable host (Returns res) ("Evaluation error: " +:+ m)
| unusable_no_object res data :
    Response.ok res = true ->
    Response.json res = Returns data ->
    JS.match_object (first_content data) = None ->
    Unusable host (Returns res) "Failed to parse AI evaluation"
| unusable_not_json res data span m :
    Response.ok res = true ->
    Response.json res = Returns data ->
    JS.match_object (first_content data) = Some span ->
    Host.JSON_parse host span = Throws m ->
    Unusable host (Returns res) ("Evaluation error: " +:+ m).

(** The judgment the specification's rule gives for a reply text: the first
    balanced span is parsed. *)
Definition judgment_of_first_balanced_span (host : Host) (text : string)
  : EvaluationResult :=
  match first_balanced_span text with
  | None => parse_failure
  | Some span =>
      match Host.JSON_parse host span with
      | Returns r => r
      | Throws m => evaluation_error m
      end
  end.

(** What [discoverBounties] keeps of a listing in the state [s]: the titled,
    open, not yet processed bounties. *)
Definition discovered (s : AgentState) (listing : list Bounty) : list Bounty :=
  List.filter (unprocessed s)
    (List.filter (fun b => String.eqb (Bounty.status b) "open")
       (List.filter (fun b => JS.nonempty (Bounty.title b)) listing)).

(** Steps 1 and 2 of [runCycle]: the evaluations made, and the world right
    before the claim step. *)
Definition steps_1_2 (host : Host) (remote : Remote) (config : Config)
  : Promise (list (Bounty * EvaluationResult)) :=
  let* bounties := discoverBounties remote config in
  evaluate_loop host remote config (firstn 5 bounties) [].

(** [n] calls of [runCycle] in a row, by a caller that goes on when a call
    throws, as the loop of [startLoop] does. *)
Fixpoint cycles (host : Host) (remote : Remote) (config : Config) (n : nat)
  : Promise unit :=
  match n with
  | O => resolve tt
  | S n' =>
      try_catch (runCycle host remote config) (fun _ => resolve tt) ;;
      cycles host remote config n'
  end.

(** The identifiers of the evaluated tasks. *)
Definition evaluated_ids (evaluations : list (Bounty * EvaluationResult)) : list string :=
  map (fun e => Bounty.id (fst e)) evaluations.

(** The public operations of a [BountyAgent], and the world a call leaves
    whether it returns or throws.  [startLoop] runs for the given number of
    iterations at most; [getState] only reads. *)
Inductive Operation : Type :=
| call_discoverBounties
| call_evaluateBounty (bounty : Bounty)
| call_claimBounty (bountyId : string)
| call_generateWorkPlan (bounty : Bounty)
| call_submitWork (bountyId submission proof : string)
| call_runCycle
| call_startLoop (fuel : nat)
| call_stop
| call_getState.

Definition perform (host : Host) (remote : Remote) (config : Config)
    (w : World) (op : Operation) : World :=
  match op with
  | call_discoverBounties => snd (discoverBounties remote config w)
  | call_evaluateBounty bounty => snd (evaluateBounty host remote config bounty w)
  | call_claimBounty bountyId => snd (claimBounty remote config bountyId w)
  | call_generateWorkPlan bounty => snd (generateWorkPlan remote config bounty w)
  | call_submitWork bountyId submission proof =>
      snd (submitWork remote config bountyId submission proof w)
  | call_runCycle => snd (runCycle host remote config w)
  | call_startLoop fuel => snd (startLoop host remote config fuel w)
  | call_stop => snd (stop w)
  | call_getState => snd (get_state w)
  end.

(** The world after a sequence of calls. *)
Definition perform_all (host : Host) (remote : Remote) (config : Config)
    (w : World) (ops : list Operation) : World :=
  fold_left (perform host remote config) ops w.

(** ** Relations between the world before and after a promise *)

(** [keeps R p]: the world [p] ends in, whether it returns or throws, is
    related by [R] to the world it started in. *)
Definition keeps {A : Type} (R : relation World) (p : Promise A) : Prop :=
  forall w, R w (snd (p w)).

(** Each of the three sets only grows. *)
Definition grows (w w' : World) : Prop :=
  claimed w ⊆ claimed w' /\ completed w ⊆ completed w' /\ skipped w ⊆ skipped w'.

(** The running flag is the same. *)
Definition same_flag (w w' : World) : Prop :=
  AgentState.isRunning (World.state w') = AgentState.isRunning (World.state w).

(** A claim or submit request for the task [id]. *)
Definition mutates (id : string) (e : Event) : bool :=
  match e with
  | Fetch (PostClaim _ i _) => String.eqb i id
  | Fetch (PostSubmit _ i _ _ _) => String.eqb i id
  | _ => false
  end.

(** [aloof id]: between [w] and [w'] the task [id] was neither claimed nor
    submitted: it entered neither [claimed] nor [completed] and no claim or
    submit request was sent for it. *)
Definition aloof (id : string) (w w' : World) : Prop :=
  (id ∈ claimed w' -> id ∈ claimed w)
  /\ (id ∈ completed w' -> id ∈ completed w)
  /\ (forall e, e ∈ World.history w' -> mutates id e = true -> e ∈ World.history w).

(** [quiet id]: moreover it did not enter [skipped]. *)
Definition quiet (id : string) (w w' : World) : Prop :=
  aloof id w w' /\ (id ∈ skipped w' -> id ∈ skipped w).

(** [later w w']: [w'] has all of [w]: the three sets have grown and the
    history has been extended. *)
Definition later (w w' : World) : Prop :=
  grows w w' /\ exists h, World.history w' = h ++ World.history w.

(** [claim_tried config id w w']: between [w] and [w'] the agent has tried
    to claim the task [id]: in a dry run the identifier is in [claimed], and
    otherwise a claim request for it was sent after [w]. *)
Definition claim_tried (config : Config) (id : string) (w w' : World) : Prop :=
  if Config.dryRun config then id ∈ claimed w'
  else exists h,
      World.history w' = h ++ World.history w
      /\ Fetch (PostClaim (client config) id (Config.walletAddress config)) ∈ h.

(** [Frame R P Q]: the relation [R] between worlds is kept by every effect
    of the agent that claims or submits only tasks satisfying [P] and skips
    only tasks satisfying [Q]. *)
Class Frame (R : relation World) (P Q : string -> Prop) : Prop := {
  frame_preorder :: PreOrder R;
  frame_event : forall w e,
    (forall id, mutates id e = true -> P id) ->
    R w (World.mk (World.state w) (e :: World.history w));
  frame_claimed : forall w id,
    P id -> R w (World.mk (add_claimed id (World.state w)) (World.history w));
  frame_completed : forall w id,
    P id -> R w (World.mk (add_completed id (World.state w)) (World.history w));
  frame_skipped : forall w id,
    Q id -> R w (World.mk (add_skipped id (World.state w)) (World.history w));
}.

(** ** Further vocabulary: what a request delivers *)

(** What [request] makes of the outcome of its [fetch]: a rejection is
    passed on, a status that is not 2xx is an error with the status and the
    body text, and otherwise the JSON body is the result. *)
Definition delivered {T : Type} (o : Outcome (Response T)) : Outcome T :=
  match o with
  | Throws m => Throws m
  | Returns res =>
      if Response.ok res then Response.json res
      else Throws ("Bounty API " +:+ pretty (Response.status res) +:+ ": "
                   +:+ Response.text res)
  end.

(** What [chat] makes of the outcome of its [fetch]. *)
Definition chat_reply (o : Outcome (Response OpenRouterResponse)) : Outcome string :=
  match o with
  | Throws m => Throws m
  | Returns res =>
      if Response.ok res then
        match Response.json res with
        | Returns data => Returns (first_content data)
        | Throws m => Throws m
        end
      else Throws ("OpenRouter API " +:+ pretty (Response.status res) +:+ ": "
                   +:+ Response.text res)
  end.

(** A byte that is no ASCII character.  In a string without such bytes every
    byte is one character, and one UTF-16 unit of the JavaScript string. *)
Definition non_ascii (c : ascii) : bool := (128 <=? N_of_ascii c)%N.

(** The three requests the agent sends for one task that it claims. *)
Definition claim_request (config : Config) (id : string) : Request :=
  PostClaim (client config) id (Config.walletAddress config).

Definition submit_request (config : Config) (id workPlan : string) : Request :=
  PostSubmit (client config) id (Config.walletAddress config) workPlan
    (proof_reference (Config.walletAddress config) id).

(** ** Further concrete remotes and hosts *)

Module Case.

Definition refusal (status : N) (text : string) : Outcome (Response StatusBody) :=
  Returns (Response.mk false status text (Throws "Unexpected end of JSON input")).

(** A remote like [Sample.scripted] that accepts claims only when [claims]
    is set (and answers 409 otherwise) and submits only when [submits] is
    set (and answers 500 otherwise). *)
Definition picky (listing : list Bounty)
    (replies : list (Outcome (Response OpenRouterResponse)))
    (otherwise : Outcome (Response OpenRouterResponse))
    (claims submits : bool) : Remote :=
  {| Remote.bounties := fun _ => Sample.answer listing;
     Remote.mutation :=
       fun h =>
         match h with
         | Fetch (PostClaim _ _ _) :: _ =>
             if claims then Sample.answer (StatusBody.mk "claimed")
             else refusal 409 "already claimed"
         | Fetch (PostSubmit _ _ _ _ _) :: _ =>
             if submits then Sample.answer (StatusBody.mk "submitted")
             else refusal 500 "try later"
         | _ => Throws "no such route"
         end;
     Remote.completion :=
       fun h => nth (length (List.filter Sample.is_chat (tl h))) replies otherwise;
     Remote.stop_requested := fun _ => false |}.

Definition bug : Bounty := Sample.open_bounty "1" "Fix bug" "50000000".

End Case.

(** A third judgment for the scenarios: suitable, with confidence one half. *)
Module Timid.

Definition json : string :=
  String.concat dq
    [ "{"; "suitable"; ":true,"; "confidence"; ":0.5,"; "reasoning"; ":"; "maybe"; ",";
      "estimatedEffort"; ":"; "medium"; "}" ].

Definition result : EvaluationResult :=
  EvaluationResult.mk true (JS.div (JS.int 1) (JS.int 2)) "maybe" "medium".

(** The host of [Sample], which parses this object too. *)
Definition host : Host :=
  Host.mk Sample.Number
    (fun s => if String.eqb s json then Returns result else Sample.JSON_parse s).

End Timid.

(** The invariant of the cycles: what is completed has been claimed. *)
Definition completed_was_claimed (w : World) : Prop := completed w ⊆ claimed w.

(** ** The other methods of [BountyClient], and [main] *)

Module Str.


(** [s.split(sep)] for a separator of one character. *)
Fixpoint split (sep : ascii) (s : string) : list string :=
  match s with
  | EmptyString => [EmptyString]
  | String c s' =>
      if Ascii.eqb c sep then EmptyString :: split sep s'
      else
        match split sep s' with
        | piece :: pieces => String c piece :: pieces
        | [] => [String c EmptyString]
        end
  end.

End Str.

(** A [BountyClient] with the base address [apiBase].  [toLowerCase] is the
    host's function on strings. *)
Module Client.

Section Methods.

Context (toLowerCase : string -> string) (remote : Remote) (apiBase : string).

Definition listBounties : Promise (list Bounty) :=
  let* bounties := request (Remote.bounties remote) (GetBounties apiBase) in
  resolve (List.filter (fun b => JS.nonempty (Bounty.title b)) bounties).

Definition listOpenBounties : Promise (list Bounty) :=
  let* bounties := listBounties in
  resolve (List.filter (fun b => String.eqb (Bounty.status b) "open") bounties).

(** [undefined] is [None]. *)
Definition getBounty (id : string) : Promise (option Bounty) :=
  let* bounties := listBounties in
  resolve (List.find (fun b => String.eqb (Bounty.id b) id) bounties).



(** The test of [filterByTag]'s filter, for the lowered tag [t]. *)
Definition tagged (t : string) (b : Bounty) : bool :=
  existsb (fun bt => String.eqb (toLowerCase bt) t) (Bounty.tags b).

Definition filterByTag (tag : string) : Promise (list Bounty) :=
  let* bounties := listBounties in
  let t := toLowerCase tag in
  resolve (List.filter (tagged t) bounties).

End Methods.

End Client.

(** How [main] ends: [process.exit(1)], the promise of [main] resolves, or
    the loop is still going when the iterations granted to the model are
    used up. *)
Inductive ProcessEnd : Type := exit_1 | resolved | looping.

Definition DEFAULT_SKILLS : list string :=
  ["typescript"; "javascript"; "web development"; "api integration"].

(** The skills [main] computes; [trim] is the host's [String.prototype.trim]. *)
Definition main_skills (trim : string -> string) (SKILLS : option string) : list string :=
  match SKILLS with
  | Some s => if JS.nonempty s then map trim (Str.split "," s) else DEFAULT_SKILLS
  | None => DEFAULT_SKILLS
  end.

(** What [main] makes of the promise it awaits: a rejection goes to the
    [catch] of [main()], which exits with code 1. *)
Definition run_to_end {A : Type} (p : Promise A) (ending : A -> ProcessEnd)
  : ProcessEnd * World :=
  match p initial_world with
  | (Returns a, w) => (ending a, w)
  | (Throws _, w) => (exit_1, w)
  end.

(** [main], from the environment variables and [process.argv[2]].  The
    signal handlers are not modelled. *)
Definition main (host : Host) (trim : string -> string) (remote : Remote) (env : Env)
    (OPENROUTER_API_KEY WALLET_ADDRESS SKILLS argv2 : option string) (fuel : nat)
  : ProcessEnd * World :=
  match OPENROUTER_API_KEY, WALLET_ADDRESS with
  | Some apiKey, Some wallet =>
      if JS.nonempty apiKey && JS.nonempty wallet then
        let skills := main_skills trim SKILLS in
        let config := constructor (main_config host env apiKey wallet skills) in
        let mode := JS.or_string argv2 "loop" in
        if String.eqb mode "once" then
          run_to_end (runCycle host remote config) (fun _ => resolved)
        else if String.eqb mode "discover" then
          run_to_end (Client.listOpenBounties remote (BountyClient None))
            (fun _ => resolved)
        else
          run_to_end (startLoop host remote config fuel)
            (fun status =>
               match status with
               | Continues => looping
               | _ => resolved
               end)
      else (exit_1, initial_world)
  | _, _ => (exit_1, initial_world)
  end.

(** [own config e]: the effect [e] carries the configuration of the agent:
    its base address, wallet address, credential and model, its poll
    interval. *)
Definition own (config : Config) (e : Event) : Prop :=
  match e with
  | Fetch (GetBounties base) => base = client config
  | Fetch (PostClaim base _ address) =>
      base = client config /\ address = Config.walletAddress config
  | Fetch (PostSubmit base _ address _ _) =>
      base = client config /\ address = Config.walletAddress config
  | Fetch (PostChat key model _) =>
      key = Config.openRouterApiKey config /\ model = Config.model config
  | SetTimeout ms => ms = Config.pollInterval config
  end.

(** Every effect since [w] is the agent's own. *)
Definition only_own (config : Config) (w w' : World) : Prop :=
  forall e, e ∈ World.history w' -> e ∈ World.history w \/ own config e.

(** A request that changes the listing service: a claim or a submit. *)
Definition is_mutation (e : Event) : bool :=
  match e with
  | Fetch (PostClaim _ _ _) | Fetch (PostSubmit _ _ _ _ _) => true
  | _ => false
  end.

(** No claim and no submit request was sent since [w]. *)
Definition read_only (w w' : World) : Prop :=
  forall e, e ∈ World.history w' -> is_mutation e = true -> e ∈ World.history w.

(** * Properties *)

(** ** Reasoning about promises *)

Lemma await_returns {A B : Type} (p : Promise A) (k : A -> Promise B) w a w' :
  p w = (Returns a, w') -> await p k w = k a w'.
Proof. intros E. unfold await. by rewrite E. Qed.

Section Keeps.

Context (R : relation World) `{!PreOrder R}.

Lemma keeps_resolve {A : Type} (a : A) : keeps R (resolve a).
Proof. intros w. simpl. reflexivity. Qed.

Lemma keeps_throw {A : Type} (m : string) : keeps R (@throw A m).
Proof. intros w. simpl. reflexivity. Qed.

Lemma keeps_settle {A : Type} (o : Outcome A) : keeps R (settle o).
Proof. intros w. simpl. reflexivity. Qed.

Lemma keeps_get_state : keeps R get_state.
Proof. intros w. simpl. reflexivity. Qed.

Lemma keeps_await {A B : Type} (p : Promise A) (k : A -> Promise B) :
  keeps R p -> (forall a, keeps R (k a)) -> keeps R (await p k).
Proof.
  intros Hp Hk w. unfold await. specialize (Hp w).
  destruct (p w) as [[a|m] w']; simpl in *; [|done].
  etrans; [exact Hp | apply Hk].
Qed.

Lemma keeps_try_catch {A : Type} (p : Promise A) (h : string -> Promise A) :
  keeps R p -> (forall m, keeps R (h m)) -> keeps R (try_catch p h).
Proof.
  intros Hp Hh w. unfold try_catch. specialize (Hp w).
  destruct (p w) as [[a|m] w']; simpl in *; [done|].
  etrans; [exact Hp | apply Hh].
Qed.

Lemma keeps_if {A : Type} (b : bool) (p q : Promise A) :
  keeps R p -> keeps R q -> keeps R (if b then p else q).
Proof. by destruct b. Qed.

Lemma keeps_for_of {A : Type} (l : list A) (body : A -> Promise unit) :
  (forall x, x ∈ l -> keeps R (body x)) -> keeps R (for_of l body).
Proof.
  induction l as [|x l IH]; intros Hb; simpl.
  - apply keeps_resolve.
  - apply keeps_await.
    + apply Hb. left.
    + intros _. apply IH. intros y Hy. apply Hb. by right.
Qed.

End Keeps.

#[local] Instance grows_preorder : PreOrder grows.
Proof.
  split.
  - intros w. by repeat split.
  - intros w1 w2 w3 (?&?&?) (?&?&?). repeat split; set_solver.
Qed.

#[local] Instance same_flag_preorder : PreOrder same_flag.
Proof. split; [done | intros w1 w2 w3; unfold same_flag; congruence]. Qed.

#[local] Instance aloof_preorder id : PreOrder (aloof id).
Proof.
  split.
  - intros w. by repeat split.
  - intros w1 w2 w3 (?&?&?) (?&?&?). repeat split; eauto.
Qed.

#[local] Instance quiet_preorder id : PreOrder (quiet id).
Proof.
  split.
  - intros w. split; [reflexivity | done].
  - intros w1 w2 w3 [? ?] [? ?]. split; [by etrans | eauto].
Qed.

(** ** The constructor *)

(** C9: a falsy configured value is replaced by the default.  A [maxReward]
    of 0 gives the ceiling 100, a [pollInterval] of 0 gives 300000 ms, an
    empty [model] gives the default model; hence the effective ceiling is
    never zero, whatever is configured, also through [main]. *)
Theorem constructor_replaces_falsy_values :
  (forall key wallet model skills apiBase dryRun pollInterval,
      Config.maxReward
        (constructor
           (AgentConfig.mk key wallet model skills (Some (JS.int 0)) apiBase dryRun
              pollInterval))
      = JS.int 100)
  /\ (forall key wallet model skills maxReward apiBase dryRun,
         Config.pollInterval
           (constructor
              (AgentConfig.mk key wallet model skills maxReward apiBase dryRun
                 (Some (JS.int 0))))
         = JS.int 300000)
  /\ (forall key wallet skills maxReward apiBase dryRun pollInterval,
         Config.model
           (constructor
              (AgentConfig.mk key wallet (Some EmptyString) skills maxReward apiBase dryRun
                 pollInterval))
         = DEFAULT_MODEL)
  /\ (forall config : AgentConfig,
         JS.truthy (Config.maxReward (constructor config)) = true
         /\ Config.maxReward (constructor config) <> JS.int 0)
  /\ (forall host env apiKey wallet skills,
         Config.maxReward (constructor (main_config host env apiKey wallet skills))
         <> JS.int 0).
Proof.
  assert (Htruthy : forall config : AgentConfig,
             JS.truthy (Config.maxReward (constructor config)) = true).
  { intros config. simpl. unfold JS.or_number.
    destruct (AgentConfig.maxReward config) as [n|]; [|reflexivity].
    destruct (JS.truthy n) eqn:E; [exact E | reflexivity]. }
  assert (Hnonzero : forall config : AgentConfig,
             Config.maxReward (constructor config) <> JS.int 0).
  { intros config E. specialize (Htruthy config). rewrite E in Htruthy. discriminate. }
  repeat split; try reflexivity; auto.
Qed.

(** ** Extraction of the JSON object *)

Lemma from_first_open_app pre rest :
  lacks JS.is_open pre = true ->
  JS.from_first_open (pre +:+ String "{" rest) = Some (String "{" rest).
Proof.
  induction pre as [|c pre IH]; simpl; intros H; [reflexivity|].
  apply andb_prop in H as [Hc Hpre]. apply negb_true_iff in Hc.
  rewrite Hc. auto.
Qed.

Lemma upto_last_close_lacks post :
  lacks JS.is_close post = true -> JS.upto_last_close post = None.
Proof.
  induction post as [|c post IH]; simpl; intros H; [reflexivity|].
  apply andb_prop in H as [Hc Hpost]. apply negb_true_iff in Hc.
  by rewrite IH, Hc.
Qed.

Lemma upto_last_close_app mid post :
  lacks JS.is_close post = true ->
  JS.upto_last_close (mid +:+ String "}" post) = Some (mid +:+ "}").
Proof.
  intros H. induction mid as [|c mid IH]; simpl.
  - by rewrite upto_last_close_lacks.
  - by rewrite IH.
Qed.

(** The match is the span from the first opening brace to the last closing
    brace after it. *)
Lemma match_object_span pre mid post :
  lacks JS.is_open pre = true ->
  lacks JS.is_close post = true ->
  JS.match_object (pre +:+ String "{" (mid +:+ String "}" post))
  = Some (String "{" (mid +:+ "}")).
Proof.
  intros Hpre Hpost. unfold JS.match_object.
  rewrite from_first_open_app by done.
  by rewrite upto_last_close_app.
Qed.

Lemma match_object_inv s m :
  JS.match_object s = Some m ->
  exists pre mid post,
    s = pre +:+ String "{" (mid +:+ String "}" post)
    /\ m = String "{" (mid +:+ "}")
    /\ lacks JS.is_open pre = true
    /\ lacks JS.is_close post = true.
Proof.
  assert (Hopen : forall s t, JS.from_first_open s = Some t ->
            exists pre rest, s = pre +:+ String "{" rest /\ t = String "{" rest
                             /\ lacks JS.is_open pre = true).
  { clear. induction s as [|c s IH]; simpl; intros t H; [discriminate|].
    destruct (JS.is_open c) eqn:Ec.
    - injection H as <-. apply Ascii.eqb_eq in Ec as ->.
      by exists EmptyString, s.
    - destruct (IH _ H) as (pre & rest & -> & -> & Hpre).
      exists (String c pre), rest. simpl. by rewrite Ec, Hpre. }
  assert (Hclose : forall s r, JS.upto_last_close s = Some r ->
            exists mid post, s = mid +:+ String "}" post /\ r = mid +:+ "}"
                             /\ lacks JS.is_close post = true).
  { clear. induction s as [|c s IH]; simpl; intros r H; [discriminate|].
    destruct (JS.upto_last_close s) as [r'|] eqn:Es.
    - injection H as <-. destruct (IH _ eq_refl) as (mid & post & -> & -> & Hpost).
      by exists (String c mid), post.
    - destruct (JS.is_close c) eqn:Ec; [|discriminate]. injection H as <-.
      apply Ascii.eqb_eq in Ec as ->. exists EmptyString, s. repeat split.
      clear IH. induction s as [|d s IH]; [reflexivity|]. simpl in *.
      destruct (JS.upto_last_close s); [discriminate|].
      destruct (JS.is_close d); [discriminate|]. simpl. by apply IH. }
  unfold JS.match_object. intros H.
  destruct (JS.from_first_open s) as [t|] eqn:Et; [|discriminate].
  destruct (Hopen _ _ Et) as (pre & rest & -> & -> & Hpre).
  destruct (JS.upto_last_close rest) as [r|] eqn:Er; [|discriminate].
  injection H as <-.
  destruct (Hclose _ _ Er) as (mid & post & -> & -> & Hpost).
  by exists pre, mid, post.
Qed.

(** ** The operations, one by one *)

Section Operations.

Context (host : Host) (remote : Remote) (config : Config).

Lemma chat_unfold messages w :
  chat remote config messages w
  = (match Remote.completion remote
             (Fetch (PostChat (Config.openRouterApiKey config) (Config.model config) messages)
                :: World.history w) with
     | Throws m => Throws m
     | Returns res =>
         if Response.ok res then
           match Response.json res with
           | Returns data => Returns (first_content data)
           | Throws m => Throws m
           end
         else Throws ("OpenRouter API " +:+ pretty (Response.status res) +:+ ": "
                      +:+ Response.text res)
     end,
     sent (PostChat (Config.openRouterApiKey config) (Config.model config) messages) w).
Proof.
  unfold chat, await, fetch, sent.
  destruct (Remote.completion remote _) as [res|m]; [|reflexivity].
  destruct (Response.ok res); simpl; [|reflexivity].
  by destruct (Response.json res).
Qed.

(** [evaluateBounty] always returns, having sent exactly its request. *)
Lemma evaluateBounty_returns bounty w :
  exists r, evaluateBounty host remote config bounty w
            = (Returns r, sent (evaluation_request config bounty) w).
Proof.
  unfold evaluateBounty, try_catch, await. rewrite chat_unfold.
  fold (evaluation_request config bounty).
  destruct (Remote.completion remote _) as [res|m]; [|by eexists].
  destruct (Response.ok res); [|by eexists].
  destruct (Response.json res) as [data|m]; [|by eexists].
  destruct (JS.match_object (first_content data)) as [span|]; [|by eexists].
  unfold settle. destruct (Host.JSON_parse host span); by eexists.
Qed.

Lemma evaluateBounty_unusable bounty w reasoning :
  Unusable host
    (Remote.completion remote (Fetch (evaluation_request config bounty) :: World.history w))
    reasoning ->
  fst (evaluateBounty host remote config bounty w)
  = Returns (EvaluationResult.mk false (JS.int 0) reasoning "high").
Proof.
  unfold evaluateBounty, try_catch, await. rewrite chat_unfold.
  fold (evaluation_request config bounty).
  inversion 1 as [m Ha|res Hok Ha|res m Hok Hj Ha|res data Hok Hj Hm Ha
                  |res data span m Hok Hj Hm Hp Ha]; subst; try rewrite Hok;
    try rewrite Hj; try rewrite Hm; try reflexivity.
  unfold settle. by rewrite Hp.
Qed.

End Operations.

(** C2: [evaluateBounty] never throws; when the oracle call fails or the
    reply has no JSON object to extract, it returns the safe default:
    not suitable, confidence 0, effort "high", and a reasoning that tells
    the failure. *)
Theorem evaluateBounty_fails_closed host remote config bounty w :
  (exists r w', evaluateBounty host remote config bounty w = (Returns r, w'))
  /\ (forall reasoning,
         Unusable host
           (Remote.completion remote
              (Fetch (evaluation_request config bounty) :: World.history w))
           reasoning ->
         fst (evaluateBounty host remote config bounty w)
         = Returns
             {| EvaluationResult.suitable := false;
                EvaluationResult.confidence := JS.int 0;
                EvaluationResult.reasoning := reasoning;
                EvaluationResult.estimatedEffort := "high" |}).
Proof.
  split.
  - destruct (evaluateBounty_returns host remote config bounty w) as [r E]. eauto.
  - intros reasoning. apply evaluateBounty_unusable.
Qed.

Lemma evaluateBounty_fails_closed_witness :
  fst (evaluateBounty Sample.host (Sample.scripted [] [] (Throws "down"))
         (Sample.config 100 false) (Sample.open_bounty "1" "Fix bug" "50000000")
         initial_world)
  = Returns (EvaluationResult.mk false (JS.int 0) "Evaluation error: down" "high").
Proof.
  apply (proj2 (evaluateBounty_fails_closed Sample.host
                  (Sample.scripted [] [] (Throws "down")) (Sample.config 100 false)
                  (Sample.open_bounty "1" "Fix bug" "50000000") initial_world)
           "Evaluation error: down").
  exact (unusable_rejected Sample.host "down").
Defined.

(** C3, as amended: [evaluateBounty] parses the span of the reply that runs
    from its first opening brace to its last closing brace.  So when the
    text before the object has no opening brace and the text after it has no
    closing brace, exactly the object is parsed; every span that is parsed
    is of that kind; and a reply without such a span gives the default. *)
Theorem evaluateBounty_parses_first_open_to_last_close host remote config bounty w data :
  accepted
    (Remote.completion remote (Fetch (evaluation_request config bounty) :: World.history w))
    data ->
  let judgment (span : string) : Outcome EvaluationResult :=
    match Host.JSON_parse host span with
    | Returns r => Returns r
    | Throws m => Returns (evaluation_error m)
    end in
  (forall pre mid post,
      first_content data = pre +:+ String "{" (mid +:+ String "}" post) ->
      lacks JS.is_open pre = true ->
      lacks JS.is_close post = true ->
      fst (evaluateBounty host remote config bounty w)
      = judgment (String "{" (mid +:+ "}")))
  /\ (forall span,
         JS.match_object (first_content data) = Some span ->
         fst (evaluateBounty host remote config bounty w) = judgment span
         /\ exists pre mid post,
             first_content data = pre +:+ String "{" (mid +:+ String "}" post)
             /\ span = String "{" (mid +:+ "}")
             /\ lacks JS.is_open pre = true
             /\ lacks JS.is_close post = true)
  /\ (JS.match_object (first_content data) = None ->
      fst (evaluateBounty host remote config bounty w) = Returns parse_failure).
Proof.
  intros (res & Ha & Hok & Hj) judgment.
  assert (Hsome : forall span,
             JS.match_object (first_content data) = Some span ->
             fst (evaluateBounty host remote config bounty w) = judgment span).
  { intros span Hm. unfold evaluateBounty, try_catch, await. rewrite chat_unfold.
    fold (evaluation_request config bounty). rewrite Ha, Hok, Hj, Hm.
    unfold settle, judgment. by destruct (Host.JSON_parse host span). }
  split; [|split].
  - intros pre mid post Hc Hpre Hpost. apply Hsome. rewrite Hc.
    by apply match_object_span.
  - intros span Hm. split; [by apply Hsome | by apply match_object_inv].
  - intros Hm. unfold evaluateBounty, try_catch, await. rewrite chat_unfold.
    fold (evaluation_request config bounty). by rewrite Ha, Hok, Hj, Hm.
Qed.

Lemma evaluateBounty_parses_first_open_to_last_close_witness :
  fst (evaluateBounty Sample.host
         (Sample.scripted [] [Sample.says ("Sure: " +:+ Sample.accept_json +:+ " Done.")]
            (Throws "down"))
         (Sample.config 100 false) (Sample.open_bounty "1" "Fix bug" "50000000")
         initial_world)
  = Returns Sample.accept.
Proof.
  refine (proj1
    (evaluateBounty_parses_first_open_to_last_close Sample.host _ _ _ initial_world
       (OpenRouterResponse.mk ["Sure: " +:+ Sample.accept_json +:+ " Done."]) _)
    "Sure: "
    (String.substring 1 (String.length Sample.accept_json - 2) Sample.accept_json)
    " Done." _ _ _).
  - eexists. split; [reflexivity|]. split; reflexivity.
  - reflexivity.
  - reflexivity.
  - reflexivity.
Defined.

(** C3, as stated, fails: the reply below holds the object and then a second
    pair of braces; the first balanced span is the object, which is a
    suitable judgment, but the agent parses up to the last brace, fails and
    answers with the default. *)
Lemma first_balanced_span_is_not_what_is_parsed :
  let reply := Sample.accept_json +:+ " {}" in
  let remote := Sample.scripted [] [Sample.says reply] (Throws "down") in
  let bounty := Sample.open_bounty "1" "Fix bug" "50000000" in
  first_balanced_span reply = Some Sample.accept_json
  /\ JS.match_object reply = Some reply
  /\ judgment_of_first_balanced_span Sample.host reply = Sample.accept
  /\ fst (evaluateBounty Sample.host remote (Sample.config 100 false) bounty initial_world)
     = Returns (evaluation_error "Unexpected token")
  /\ fst (evaluateBounty Sample.host remote (Sample.config 100 false) bounty initial_world)
     <> Returns (judgment_of_first_balanced_span Sample.host reply).
Proof.
  repeat split; try reflexivity. vm_compute. discriminate.
Qed.

(** ** What each operation keeps *)

#[local] Instance grows_frame : Frame grows (fun _ => True) (fun _ => True).
Proof.
  split; [apply _|..]; intros; unfold grows, claimed, completed, skipped; simpl;
    repeat split; set_solver.
Qed.

#[local] Instance same_flag_frame : Frame same_flag (fun _ => True) (fun _ => True).
Proof. split; [apply _|..]; intros; reflexivity. Qed.

Lemma elem_of_add_other (i id : string) (X : gset string) :
  id <> i -> i ∈ {[id]} ∪ X -> i ∈ X.
Proof.
  intros Hne [Hi|Hi]%elem_of_union; [|exact Hi].
  apply elem_of_singleton in Hi. congruence.
Qed.

#[local] Instance aloof_frame i : Frame (aloof i) (fun id => id <> i) (fun _ => True).
Proof.
  split; [apply _|..].
  - intros w e He. repeat split; [done..|]. simpl. intros e' [->|]%elem_of_cons Hm; [|done].
    by destruct (He i Hm).
  - intros w id Hid. repeat split; [|done..]. by apply elem_of_add_other.
  - intros w id Hid. repeat split; [done| |done]. by apply elem_of_add_other.
  - intros w id _. by repeat split.
Qed.

#[local] Instance quiet_frame i : Frame (quiet i) (fun id => id <> i) (fun id => id <> i).
Proof.
  split; [apply _|..].
  - intros w e He. split; [by apply (frame_event (R := aloof i))|done].
  - intros w id Hid. split; [by apply (frame_claimed (R := aloof i))|done].
  - intros w id Hid. split; [by apply (frame_completed (R := aloof i))|done].
  - intros w id Hid. split; [by apply (frame_skipped (R := aloof i))|].
    by apply elem_of_add_other.
Qed.

(** One step through the structure of a promise. *)
Ltac keeps_step :=
  lazymatch goal with
  | |- PreOrder _ => apply _
  | |- keeps _ (resolve _) => apply keeps_resolve
  | |- keeps _ (throw _) => apply keeps_throw
  | |- keeps _ (settle _) => apply keeps_settle
  | |- keeps _ get_state => apply keeps_get_state
  | |- keeps _ (await _ _) => apply keeps_await; [..|intros ?]
  | |- keeps _ (try_catch _ _) => apply keeps_try_catch; [..|intros ?]
  | |- keeps _ (if _ then _ else _) => apply keeps_if
  | |- keeps _ (match ?x with _ => _ end) => destruct x
  end.

Section Frames.

Context (host : Host) (remote : Remote) (config : Config).
Context (R : relation World) (P Q : string -> Prop) `{!Frame R P Q}.

Lemma keeps_fetch {T : Type} (answer : list Event -> Outcome (Response T)) r :
  (forall id, mutates id (Fetch r) = true -> P id) -> keeps R (fetch answer r).
Proof. intros Hr w. simpl. by apply frame_event. Qed.

Lemma keeps_request {T : Type} (answer : list Event -> Outcome (Response T)) r :
  (forall id, mutates id (Fetch r) = true -> P id) -> keeps R (request answer r).
Proof. intros Hr. unfold request. repeat keeps_step. by apply keeps_fetch. Qed.

Lemma keeps_chat messages : keeps R (chat remote config messages).
Proof. unfold chat. repeat keeps_step. by apply keeps_fetch. Qed.

Lemma keeps_discoverBounties : keeps R (discoverBounties remote config).
Proof.
  unfold discoverBounties, listOpenBounties, listBounties. repeat keeps_step.
  by apply keeps_request.
Qed.

Lemma keeps_evaluateBounty bounty : keeps R (evaluateBounty host remote config bounty).
Proof. unfold evaluateBounty. repeat keeps_step. apply keeps_chat. Qed.

Lemma keeps_generateWorkPlan bounty : keeps R (generateWorkPlan remote config bounty).
Proof. apply keeps_chat. Qed.

Lemma keeps_modify_claimed id : P id -> keeps R (modify_state (add_claimed id)).
Proof. intros Hid w. by apply frame_claimed. Qed.

Lemma keeps_modify_completed id : P id -> keeps R (modify_state (add_completed id)).
Proof. intros Hid w. by apply frame_completed. Qed.

Lemma keeps_modify_skipped id : Q id -> keeps R (modify_state (add_skipped id)).
Proof. intros Hid w. by apply frame_skipped. Qed.

Lemma keeps_claimBounty id : P id -> keeps R (claimBounty remote config id).
Proof.
  intros Hid. unfold claimBounty, client_claimBounty. repeat keeps_step;
    try by apply keeps_modify_claimed.
  apply keeps_request. simpl. by intros i ->%String.eqb_eq.
Qed.

Lemma keeps_submitWork id submission proof :
  P id -> keeps R (submitWork remote config id submission proof).
Proof.
  intros Hid. unfold submitWork, client_submitBounty. repeat keeps_step;
    try by apply keeps_modify_completed.
  apply keeps_request. simpl. by intros i ->%String.eqb_eq.
Qed.

Lemma keeps_claim_work_submit bounty :
  P (Bounty.id bounty) -> keeps R (claim_work_submit remote config bounty).
Proof.
  intros Hid. unfold claim_work_submit. repeat keeps_step.
  - by apply keeps_claimBounty.
  - apply keeps_generateWorkPlan.
  - by apply keeps_submitWork.
Qed.

Lemma keeps_claim_body e :
  P (Bounty.id (fst e)) -> keeps R (claim_body host remote config e).
Proof.
  intros Hid. unfold claim_body. repeat keeps_step. by apply keeps_claim_work_submit.
Qed.

Lemma keeps_evaluate_loop batch evaluations :
  (forall b, b ∈ batch -> Q (Bounty.id b)) ->
  keeps R (evaluate_loop host remote config batch evaluations).
Proof.
  revert evaluations. induction batch as [|b batch IH]; intros evaluations Hq; simpl.
  - repeat keeps_step.
  - repeat keeps_step.
    + apply keeps_evaluateBounty.
    + apply keeps_modify_skipped, Hq. left.
    + apply IH. intros b' Hb'. apply Hq. by right.
Qed.

End Frames.

(** ** The stages of a cycle *)

Section Cycle.

Context (host : Host) (remote : Remote) (config : Config).

Lemma discoverBounties_unfold w :
  discoverBounties remote config w
  = (match Remote.bounties remote
             (Fetch (GetBounties (client config)) :: World.history w) with
     | Throws m => Throws m
     | Returns res =>
         if Response.ok res then
           match Response.json res with
           | Returns listing => Returns (discovered (World.state w) listing)
           | Throws m => Throws m
           end
         else Throws ("Bounty API " +:+ pretty (Response.status res) +:+ ": "
                      +:+ Response.text res)
     end,
     sent (GetBounties (client config)) w).
Proof.
  unfold discoverBounties, listOpenBounties, listBounties, request, await, fetch, sent.
  destruct (Remote.bounties remote _) as [res|m]; [|reflexivity].
  destruct (Response.ok res); simpl; [|reflexivity].
  by destruct (Response.json res).
Qed.

Lemma unprocessed_untracked s h b :
  unprocessed s b = true <-> Bounty.id b ∉ tracked (World.mk s h).
Proof.
  unfold unprocessed, tracked, claimed, completed, skipped. simpl.
  rewrite !andb_true_iff, !negb_true_iff, !bool_decide_eq_false.
  rewrite !not_elem_of_union. tauto.
Qed.

(** Discovery returns only bounties that are in none of the three sets. *)
Lemma discoverBounties_untracked w bs w1 b :
  discoverBounties remote config w = (Returns bs, w1) ->
  b ∈ bs ->
  Bounty.id b ∉ tracked w.
Proof.
  rewrite discoverBounties_unfold. intros E Hb.
  destruct (Remote.bounties remote _) as [res|m]; [|discriminate].
  destruct (Response.ok res); [|discriminate].
  destruct (Response.json res) as [listing|m]; [|discriminate].
  injection E as <- _. unfold discovered in Hb.
  apply list_elem_of_In, filter_In in Hb as [_ Hb].
  destruct w as [s h]. by apply (unprocessed_untracked s h).
Qed.

(** The evaluation loop evaluates its whole batch, in order; it adds the
    unsuitable tasks to [skipped] and changes nothing else of the state. *)
Lemma evaluate_loop_returns batch evaluations w :
  exists evs w',
    evaluate_loop host remote config batch evaluations w = (Returns (evaluations ++ evs), w')
    /\ map fst evs = batch
    /\ claimed w' = claimed w
    /\ completed w' = completed w
    /\ (forall i, i ∈ skipped w' <->
                  i ∈ skipped w
                  \/ exists b ev, (b, ev) ∈ evs /\ EvaluationResult.suitable ev = false
                                  /\ Bounty.id b = i).
Proof.
  revert evaluations w. induction batch as [|b batch IH]; intros evaluations w; simpl.
  - exists [], w. rewrite app_nil_r. repeat split; auto.
    intros [?|(b & ev & []%elem_of_nil & _)]; done.
  - destruct (evaluateBounty_returns host remote config b w) as [r Er].
    rewrite (await_returns _ _ _ _ _ Er).
    set (w1 := sent (evaluation_request config b) w) in *.
    set (w2 := snd ((if negb (EvaluationResult.suitable r)
                     then modify_state (add_skipped (Bounty.id b))
                     else resolve tt) w1)).
    assert (E2 : (if negb (EvaluationResult.suitable r)
                  then modify_state (add_skipped (Bounty.id b))
                  else resolve tt) w1 = (Returns tt, w2)).
    { unfold w2. by destruct (EvaluationResult.suitable r). }
    rewrite (await_returns _ _ _ _ _ E2).
    destruct (IH (evaluations ++ [(b, r)]) w2) as (evs & w' & E & Hm & Hc & Hd & Hs).
    exists ((b, r) :: evs), w'. rewrite E, <- app_assoc. simpl.
    assert (Hc2 : claimed w2 = claimed w /\ completed w2 = completed w).
    { unfold w2. by destruct (EvaluationResult.suitable r). }
    destruct Hc2 as [Hc2 Hd2].
    repeat split; [by rewrite Hm | congruence | congruence | |].
    + intros [Hi|(b' & ev' & Hin & Hu & Hid)]%Hs.
      * unfold w2 in Hi. destruct (EvaluationResult.suitable r) eqn:Hr; simpl in Hi.
        -- by left.
        -- apply elem_of_union in Hi as [->%elem_of_singleton|Hi]; [|by left].
           right. exists b, r. repeat split; [left|exact Hr].
      * right. exists b', ev'. repeat split; [by right|done..].
    + intros Hi. apply Hs. destruct Hi as [Hi|(b' & ev' & Hin & Hu & Hid)].
      * left. unfold w2. destruct (EvaluationResult.suitable r); simpl; [done|].
        unfold skipped. simpl. apply elem_of_union. by right.
      * apply elem_of_cons in Hin as [[= -> ->]|Hin].
        -- left. unfold w2. rewrite Hu. unfold skipped. simpl. subst i.
           apply elem_of_union. left. by apply elem_of_singleton.
        -- right. eauto.
Qed.

(** A cycle is its steps 1 and 2, then the claim loop over the confident
    evaluations. *)
Lemma runCycle_steps w :
  runCycle host remote config w
  = (let* evaluations := steps_1_2 host remote config in
     for_of (List.filter (confident) evaluations) (claim_body host remote config)) w.
Proof.
  unfold runCycle, steps_1_2, await.
  destruct (discoverBounties remote config w) as [[bs|m] w1]; [|reflexivity].
  destruct bs as [|b bs]; reflexivity.
Qed.

End Cycle.

#[local] Instance later_preorder : PreOrder later.
Proof.
  split.
  - intros w. split; [reflexivity | by exists []].
  - intros w1 w2 w3 [Hg1 [h1 E1]] [Hg2 [h2 E2]]. split; [by etrans|].
    exists (h2 ++ h1). by rewrite E2, E1, app_assoc.
Qed.

#[local] Instance later_frame : Frame later (fun _ => True) (fun _ => True).
Proof.
  split; [apply _|..].
  - intros w e _. split; [by apply (frame_event (R := grows))|]. by exists [e].
  - intros w id _. split; [by apply (frame_claimed (R := grows))|]. by exists [].
  - intros w id _. split; [by apply (frame_completed (R := grows))|]. by exists [].
  - intros w id _. split; [by apply (frame_skipped (R := grows))|]. by exists [].
Qed.

Section CycleFrames.

Context (host : Host) (remote : Remote) (config : Config).
Context (R : relation World) (P Q : string -> Prop) `{!Frame R P Q}.

Lemma steps_1_2_returns w :
  (exists m, steps_1_2 host remote config w
             = (Throws m, sent (GetBounties (client config)) w))
  \/ (exists bs evs w2,
         discoverBounties remote config w
         = (Returns bs, sent (GetBounties (client config)) w)
         /\ steps_1_2 host remote config w = (Returns evs, w2)
         /\ map fst evs = firstn 5 bs).
Proof.
  unfold steps_1_2, await.
  assert (Hw := f_equal snd (discoverBounties_unfold remote config w)). simpl in Hw.
  destruct (discoverBounties remote config w) as [[bs|m] w1]; simpl in Hw; subst w1;
    [|left; by eexists].
  right.
  destruct (evaluate_loop_returns host remote config (firstn 5 bs) []
              (sent (GetBounties (client config)) w))
    as (evs & w2 & E & Hm & _).
  exists bs, evs, w2. by rewrite E.
Qed.

(** Steps 1 and 2 keep [R] when every task that is in none of the sets may be
    skipped. *)
Lemma keeps_steps_1_2 w :
  (forall id, id ∉ tracked w -> Q id) ->
  R w (snd (steps_1_2 host remote config w)).
Proof.
  intros Hq. unfold steps_1_2, await.
  pose proof (keeps_discoverBounties remote config R P Q w) as Hd.
  destruct (discoverBounties remote config w) as [[bs|m] w1] eqn:Ed; simpl in Hd; [|done].
  etrans; [exact Hd|].
  apply (keeps_evaluate_loop host remote config R P Q).
  intros b Hb. apply Hq.
  eapply discoverBounties_untracked; [exact Ed|].
  by apply (subseteq_take 5 bs).
Qed.

(** A whole cycle keeps [R] when every task that is in none of the sets may
    be skipped, claimed and submitted. *)
Lemma keeps_runCycle w :
  (forall id, id ∉ tracked w -> P id /\ Q id) ->
  R w (snd (runCycle host remote config w)).
Proof.
  intros Hpq. rewrite runCycle_steps. unfold await.
  pose proof (keeps_steps_1_2 w (fun id H => proj2 (Hpq id H))) as H12.
  destruct (steps_1_2_returns w) as [[m E]|(bs & evs & w2 & Ed & E & Hm)];
    rewrite E in *; simpl in *; [done|].
  etrans; [exact H12|].
  apply keeps_for_of; [apply _|].
  intros e He. apply (keeps_claim_body host remote config R P Q).
  apply Hpq. eapply discoverBounties_untracked; [exact Ed|].
  apply list_elem_of_In, filter_In in He as [He _].
  apply (subseteq_take 5 bs). rewrite <- Hm.
  apply list_elem_of_In. by apply in_map.
Qed.

End CycleFrames.

Section Cycles.

Context (host : Host) (remote : Remote) (config : Config).

Lemma runCycle_grows w : grows w (snd (runCycle host remote config w)).
Proof. by apply (keeps_runCycle host remote config grows (fun _ => True) (fun _ => True)). Qed.

Lemma tracked_grows w w' i : grows w w' -> i ∈ tracked w -> i ∈ tracked w'.
Proof.
  intros (Hc&Hd&Hs). unfold tracked. rewrite !elem_of_union.
  intros [[Hi|Hi]|Hi]; [left; left; by apply Hc | left; right; by apply Hd | right; by apply Hs].
Qed.

(** A cycle neither evaluates, nor skips, claims or submits a task that is
    in one of the three sets when the cycle starts. *)
Lemma runCycle_quiet w i :
  i ∈ tracked w -> quiet i w (snd (runCycle host remote config w)).
Proof.
  intros Hi.
  apply (keeps_runCycle host remote config (quiet i) (fun id => id <> i) (fun id => id <> i)).
  intros id Hid. split; congruence.
Qed.

(** A cycle begins with the listing request; whatever else it does comes
    after it. *)
Lemma runCycle_lists_first w :
  later (sent (GetBounties (client config)) w) (snd (runCycle host remote config w)).
Proof.
  unfold runCycle. unfold await at 1.
  pose proof (f_equal snd (discoverBounties_unfold remote config w)) as Ed.
  destruct (discoverBounties remote config w) as [[bs|m] w1]; simpl in Ed; subst w1;
    [|reflexivity].
  match goal with
  | |- later ?x (snd (?p ?x)) => cut (keeps later p); [intros H; apply H|]
  end.
  repeat keeps_step.
  - by apply (keeps_evaluate_loop host remote config later (fun _ => True) (fun _ => True)).
  - apply keeps_for_of; [apply _|]. intros e _.
    by apply (keeps_claim_body host remote config later (fun _ => True) (fun _ => True)).
Qed.

Lemma runCycle_history w :
  exists h, World.history (snd (runCycle host remote config w))
            = h ++ Fetch (GetBounties (client config)) :: World.history w.
Proof. destruct (runCycle_lists_first w) as [_ [h E]]. by exists h. Qed.

Lemma snd_try_catch_ignore (p : Promise unit) w :
  try_catch p (fun _ => resolve tt) w = (Returns tt, snd (p w)).
Proof. unfold try_catch. by destruct (p w) as [[[]|m] w']. Qed.

Lemma cycles_S n w :
  cycles host remote config (S n) w
  = cycles host remote config n (snd (runCycle host remote config w)).
Proof. simpl. unfold await. by rewrite snd_try_catch_ignore. Qed.

Lemma cycles_grows n w : grows w (snd (cycles host remote config n w)).
Proof.
  revert w. induction n as [|n IH]; intros w; [reflexivity|].
  rewrite cycles_S. etrans; [apply runCycle_grows | apply IH].
Qed.

Lemma cycles_quiet n w i :
  i ∈ tracked w -> quiet i w (snd (cycles host remote config n w)).
Proof.
  revert w. induction n as [|n IH]; intros w Hi; [reflexivity|].
  rewrite cycles_S. etrans; [by apply runCycle_quiet|].
  apply IH. eapply tracked_grows; [apply runCycle_grows | done].
Qed.

End Cycles.

Section Batch.

Context (host : Host) (remote : Remote) (config : Config).

(** What a cycle has done when its steps 1 and 2 are over. *)
Lemma steps_1_2_inv w evs w2 :
  steps_1_2 host remote config w = (Returns evs, w2) ->
  claimed w2 = claimed w
  /\ completed w2 = completed w
  /\ (forall i, i ∈ skipped w2 <->
                i ∈ skipped w
                \/ exists b ev, (b, ev) ∈ evs /\ EvaluationResult.suitable ev = false
                                /\ Bounty.id b = i)
  /\ (forall e, e ∈ evs -> Bounty.id (fst e) ∉ tracked w).
Proof.
  unfold steps_1_2, await. intros E.
  destruct (discoverBounties remote config w) as [[bs|m] w1] eqn:Ed; [|discriminate].
  assert (Hw := f_equal snd (discoverBounties_unfold remote config w)).
  rewrite Ed in Hw. simpl in Hw. subst w1.
  destruct (evaluate_loop_returns host remote config (firstn 5 bs) []
              (sent (GetBounties (client config)) w))
    as (evs' & w' & E' & Hm & Hc & Hd & Hs).
  rewrite E' in E. injection E as <- <-.
  split; [done|]. split; [done|]. split; [exact Hs|].
  intros e He. eapply discoverBounties_untracked; [exact Ed|].
  apply (subseteq_take 5 bs). rewrite <- Hm. apply list_elem_of_In. apply in_map.
  by apply list_elem_of_In.
Qed.

Lemma evaluated_ids_inj evs (e1 e2 : Bounty * EvaluationResult) :
  NoDup (evaluated_ids evs) ->
  e1 ∈ evs -> e2 ∈ evs ->
  Bounty.id (fst e1) = Bounty.id (fst e2) ->
  e1 = e2.
Proof.
  unfold evaluated_ids. induction evs as [|e evs IH]; simpl; intros Hnd H1 H2 Hid.
  - by apply elem_of_nil in H1.
  - apply NoDup_cons in Hnd as [Hnotin Hnd].
    assert (Hmem : forall x, x ∈ evs ->
                             Bounty.id (fst x) ∈ map (fun e => Bounty.id (fst e)) evs).
    { intros x Hx. apply list_elem_of_In. apply list_elem_of_In in Hx.
      by apply (in_map (fun e => Bounty.id (fst e))). }
    apply elem_of_cons in H1 as [->|H1]; apply elem_of_cons in H2 as [->|H2].
    + done.
    + destruct Hnotin. rewrite Hid. by apply Hmem.
    + destruct Hnotin. rewrite <- Hid. by apply Hmem.
    + by apply IH.
Qed.

(** The claim loop leaves alone every task that none of the confident
    evaluations is about, and every task that is over the ceiling when the
    identifiers are distinct. *)
Lemma claim_loop_quiet evs b ev w :
  (b, ev) ∈ evs ->
  NoDup (evaluated_ids evs) ->
  EvaluationResult.suitable ev = false \/ exceeds_ceiling host config b = true ->
  quiet (Bounty.id b) w
    (snd (for_of (List.filter confident evs) (claim_body host remote config) w)).
Proof.
  intros Hin Hnd Hcase. apply keeps_for_of; [apply _|].
  intros e He. apply list_elem_of_In, filter_In in He as [He Hconf].
  apply list_elem_of_In in He.
  destruct (decide (Bounty.id (fst e) = Bounty.id b)) as [Heq|Hne].
  - assert (e = (b, ev)) as -> by (by apply (evaluated_ids_inj evs)).
    destruct Hcase as [Hu|Hx].
    + unfold confident in Hconf. simpl in Hconf. by rewrite Hu in Hconf.
    + unfold claim_body. simpl. rewrite Hx. apply keeps_resolve, _.
  - by apply (keeps_claim_body host remote config (quiet (Bounty.id b))
                (fun id => id <> Bounty.id b) (fun id => id <> Bounty.id b)).
Qed.

End Batch.

(** ** Unsuitable tasks *)

(** C4, as amended: a task judged unsuitable is in [skipped] before the
    claim step; and when the tasks evaluated in that cycle have pairwise
    distinct identifiers, neither that cycle nor any later one claims it:
    its identifier stays in [skipped], never enters [claimed], and no claim
    or submit request is sent for it. *)
Theorem unsuitable_is_skipped_and_never_claimed
    host remote config w evs w2 b ev n :
  steps_1_2 host remote config w = (Returns evs, w2) ->
  (b, ev) ∈ evs ->
  EvaluationResult.suitable ev = false ->
  Bounty.id b ∈ skipped w2
  /\ (NoDup (evaluated_ids evs) ->
      let w' := snd (cycles host remote config (S n) w) in
      Bounty.id b ∈ skipped w'
      /\ (Bounty.id b ∉ claimed w')
      /\ (forall e, e ∈ World.history w' -> mutates (Bounty.id b) e = true ->
                    e ∈ World.history w)).
Proof.
  intros E Hin Hu.
  destruct (steps_1_2_inv host remote config w evs w2 E) as (Hc & Hd & Hs & Hfresh).
  assert (Hsk : Bounty.id b ∈ skipped w2) by (apply Hs; right; eauto).
  split; [exact Hsk|]. intros Hnd w'.
  set (wA := snd (runCycle host remote config w)).
  assert (HwA : wA = snd (for_of (List.filter confident evs)
                            (claim_body host remote config) w2)).
  { unfold wA. rewrite runCycle_steps. unfold await. by rewrite E. }
  assert (H1 : aloof (Bounty.id b) w w2).
  { pose proof (keeps_steps_1_2 host remote config (aloof (Bounty.id b))
                  (fun id => id <> Bounty.id b) (fun _ => True) w (fun _ _ => I)) as H.
    by rewrite E in H. }
  assert (H2 : quiet (Bounty.id b) w2 wA).
  { rewrite HwA. eapply claim_loop_quiet; eauto. }
  assert (Hg2 : grows w2 wA).
  { rewrite HwA. apply keeps_for_of; [apply _|]. intros e _.
    by apply (keeps_claim_body host remote config grows (fun _ => True) (fun _ => True)). }
  assert (HskA : Bounty.id b ∈ skipped wA).
  { by apply Hg2. }
  assert (HtA : Bounty.id b ∈ tracked wA).
  { unfold tracked. apply elem_of_union. by right. }
  assert (H3 : quiet (Bounty.id b) wA w').
  { unfold w'. rewrite cycles_S. by apply cycles_quiet. }
  assert (Hg3 : grows wA w').
  { unfold w'. rewrite cycles_S. apply cycles_grows. }
  assert (Hal : aloof (Bounty.id b) w w').
  { etrans; [exact H1|]. etrans; [exact (proj1 H2) | exact (proj1 H3)]. }
  destruct Hal as (Hcl & _ & Hev).
  split; [by apply Hg3|]. split; [|exact Hev].
  intros Hcl'. apply (Hfresh (b, ev) Hin). simpl.
  unfold tracked. apply elem_of_union. left. apply elem_of_union. left. by apply Hcl.
Qed.

Lemma unsuitable_is_skipped_and_never_claimed_witness :
  let bounty := Sample.open_bounty "1" "Fix bug" "50000000" in
  let remote := Sample.scripted [bounty] [Sample.says Sample.reject_json] (Throws "down") in
  let w' := snd (cycles Sample.host remote (Sample.config 100 true) 3 initial_world) in
  "1" ∈ skipped w' /\ ("1" ∉ claimed w').
Proof.
  intros bounty remote w'.
  pose proof (unsuitable_is_skipped_and_never_claimed Sample.host remote
                (Sample.config 100 true) initial_world [(bounty, Sample.reject)]
                (snd (steps_1_2 Sample.host remote (Sample.config 100 true) initial_world))
                bounty Sample.reject 2) as H.
  destruct H as (_ & H).
  - reflexivity.
  - left.
  - reflexivity.
  - destruct H as (Hs & Hc & _).
    + apply (bool_decide_unpack _). vm_compute. reflexivity.
    + split; [exact Hs | exact Hc].
Defined.

(** C4, as stated, fails when a listing holds the same identifier twice:
    below the task "1" is evaluated twice in one cycle, first as unsuitable,
    then as suitable, and the cycle both skips and claims it. *)
Lemma unsuitable_twin_is_claimed :
  let bounty := Sample.open_bounty "1" "Fix bug" "50000000" in
  let remote :=
    Sample.scripted [bounty; bounty]
      [Sample.says Sample.reject_json; Sample.says Sample.accept_json; Sample.says "done"]
      (Throws "down") in
  let config := Sample.config 100 false in
  fst (steps_1_2 Sample.host remote config initial_world)
  = Returns [(bounty, Sample.reject); (bounty, Sample.accept)]
  /\ "1" ∈ skipped (snd (steps_1_2 Sample.host remote config initial_world))
  /\ "1" ∈ skipped (snd (runCycle Sample.host remote config initial_world))
  /\ "1" ∈ claimed (snd (runCycle Sample.host remote config initial_world)).
Proof.
  repeat split;
    first [reflexivity | apply (bool_decide_unpack _); vm_compute; reflexivity].
Qed.

(** ** The reward ceiling *)

(** C5, as amended: when the tasks evaluated in a cycle have pairwise
    distinct identifiers, a task judged suitable with confidence at least
    0.6 whose reward in display units exceeds [maxReward] is not claimed by
    the cycle: after it, its identifier is in none of the three sets, no
    claim or submit request was sent for it, and discovery would keep it. *)
Theorem over_ceiling_is_left_untracked host remote config w evs w2 b ev :
  steps_1_2 host remote config w = (Returns evs, w2) ->
  (b, ev) ∈ evs ->
  confident (b, ev) = true ->
  exceeds_ceiling host config b = true ->
  NoDup (evaluated_ids evs) ->
  let w' := snd (runCycle host remote config w) in
  (Bounty.id b ∉ claimed w')
  /\ (Bounty.id b ∉ completed w')
  /\ (Bounty.id b ∉ skipped w')
  /\ (forall e, e ∈ World.history w' -> mutates (Bounty.id b) e = true ->
                e ∈ World.history w)
  /\ unprocessed (World.state w') b = true.
Proof.
  intros E Hin Hconf Hx Hnd w'.
  destruct (steps_1_2_inv host remote config w evs w2 E) as (Hc & Hd & Hs & Hfresh).
  assert (Hsuit : EvaluationResult.suitable ev = true).
  { unfold confident in Hconf. simpl in Hconf. by apply andb_prop in Hconf as [? _]. }
  assert (Hw' : w' = snd (for_of (List.filter confident evs)
                            (claim_body host remote config) w2)).
  { unfold w'. rewrite runCycle_steps. unfold await. by rewrite E. }
  assert (H1 : quiet (Bounty.id b) w w2).
  { split.
    - pose proof (keeps_steps_1_2 host remote config (aloof (Bounty.id b))
                    (fun id => id <> Bounty.id b) (fun _ => True) w (fun _ _ => I)) as H.
      by rewrite E in H.
    - intros [Hi|(b' & ev' & Hin' & Hu & Hid)]%Hs; [done|].
      assert ((b', ev') = (b, ev)) as [= -> ->] by (by apply (evaluated_ids_inj evs)).
      congruence. }
  assert (H2 : quiet (Bounty.id b) w2 w').
  { rewrite Hw'. eapply claim_loop_quiet; eauto. }
  assert (Hq : quiet (Bounty.id b) w w') by (by etrans).
  pose proof (Hfresh (b, ev) Hin) as Hnew. simpl in Hnew.
  destruct Hq as ((Hcl & Hco & Hev) & Hsk).
  assert (Hnot : Bounty.id b ∉ tracked w').
  { unfold tracked in *. rewrite !not_elem_of_union in *.
    destruct Hnew as [[? ?] ?]. repeat split; auto. }
  unfold tracked in Hnot. rewrite !not_elem_of_union in Hnot.
  destruct Hnot as [[? ?] ?]. repeat split; try done.
  destruct w' as [s h]. apply (unprocessed_untracked s h).
  unfold tracked. rewrite !not_elem_of_union. by repeat split.
Qed.

Lemma over_ceiling_is_left_untracked_witness :
  let bounty := Sample.open_bounty "1" "Fix bug" "50000000" in
  let remote := Sample.scripted [bounty] [Sample.says Sample.accept_json] (Throws "down") in
  let w' := snd (runCycle Sample.host remote (Sample.config 10 false) initial_world) in
  ("1" ∉ claimed w') /\ ("1" ∉ completed w') /\ ("1" ∉ skipped w').
Proof.
  intros bounty remote w'.
  pose proof (over_ceiling_is_left_untracked Sample.host remote (Sample.config 10 false)
                initial_world [(bounty, Sample.accept)]
                (snd (steps_1_2 Sample.host remote (Sample.config 10 false) initial_world))
                bounty Sample.accept) as H.
  destruct H as (Hc & Hd & Hs & _).
  - reflexivity.
  - left.
  - reflexivity.
  - reflexivity.
  - apply (bool_decide_unpack _). vm_compute. reflexivity.
  - repeat split; assumption.
Defined.

(** C5, as stated, fails when a listing holds the same identifier twice:
    below the task "1" is judged suitable with confidence 0.8 and is over
    the ceiling of 10, and the evaluation of its twin puts it in [skipped]. *)
Lemma over_ceiling_twin_is_skipped :
  let bounty := Sample.open_bounty "1" "Fix bug" "50000000" in
  let remote :=
    Sample.scripted [bounty; bounty]
      [Sample.says Sample.accept_json; Sample.says Sample.reject_json] (Throws "down") in
  let config := Sample.config 10 false in
  fst (steps_1_2 Sample.host remote config initial_world)
  = Returns [(bounty, Sample.accept); (bounty, Sample.reject)]
  /\ confident (bounty, Sample.accept) = true
  /\ exceeds_ceiling Sample.host config bounty = true
  /\ "1" ∈ skipped (snd (runCycle Sample.host remote config initial_world)).
Proof.
  repeat split;
    first [reflexivity | apply (bool_decide_unpack _); vm_compute; reflexivity].
Qed.

(** ** Dry run *)

(** C6: in a dry run, [claimBounty] and [submitWork] send nothing; the claim
    returns [true] and adds the identifier to [claimed], the submit adds it
    to [completed] and returns a result whose status is "dry_run".  The
    state they leave is the one the live path leaves when its request is
    accepted. *)
Theorem dry_run_claims_and_submits_locally remote config id submission proof w :
  Config.dryRun config = true ->
  let w1 := snd (claimBounty remote config id w) in
  let w2 := snd (submitWork remote config id submission proof w1) in
  fst (claimBounty remote config id w) = Returns true
  /\ World.history w1 = World.history w
  /\ World.state w1 = add_claimed id (World.state w)
  /\ fst (submitWork remote config id submission proof w1)
     = Returns (SubmissionResult.mk id submission proof "dry_run")
  /\ World.history w2 = World.history w
  /\ World.state w2 = add_completed id (add_claimed id (World.state w))
  /\ id ∈ claimed w2
  /\ id ∈ completed w2
  /\ (forall live w0 body,
         Config.dryRun live = false ->
         accepted
           (Remote.mutation remote
              (Fetch (PostClaim (client live) id (Config.walletAddress live))
                 :: World.history w0))
           body ->
         World.state (snd (claimBounty remote live id w0)) = add_claimed id (World.state w0))
  /\ (forall live w0 body,
         Config.dryRun live = false ->
         accepted
           (Remote.mutation remote
              (Fetch (PostSubmit (client live) id (Config.walletAddress live)
                        submission proof)
                 :: World.history w0))
           body ->
         World.state (snd (submitWork remote live id submission proof w0))
         = add_completed id (World.state w0)).
Proof.
  intros Hdry w1 w2. unfold w2, w1, claimBounty, submitWork. rewrite Hdry. simpl.
  repeat split.
  - unfold claimed. simpl. apply elem_of_union. left. by apply elem_of_singleton.
  - unfold completed. simpl. apply elem_of_union. left. by apply elem_of_singleton.
  - intros live w0 body Hlive (res & Ha & Hok & Hj). rewrite Hlive.
    unfold try_catch, client_claimBounty, request, await, fetch.
    by rewrite Ha, Hok, Hj.
  - intros live w0 body Hlive (res & Ha & Hok & Hj). rewrite Hlive.
    unfold try_catch, client_submitBounty, request, await, fetch.
    by rewrite Ha, Hok, Hj.
Qed.

Lemma dry_run_claims_and_submits_locally_witness :
  let remote := Sample.scripted [] [] (Throws "down") in
  let config := Sample.config 100 true in
  let w1 := snd (claimBounty remote config "1" initial_world) in
  let w2 := snd (submitWork remote config "1" "work" "link" w1) in
  Config.dryRun config = true /\ World.history w2 = [] /\ "1" ∈ claimed w2 /\ "1" ∈ completed w2.
Proof.
  intros remote config w1 w2.
  pose proof (dry_run_claims_and_submits_locally remote config "1" "work" "link"
                initial_world eq_refl) as (_ & _ & _ & _ & Hh & _ & Hc & Hd & _).
  split; [reflexivity|]. split; [exact Hh|]. split; [exact Hc | exact Hd].
Defined.

(** ** A reward that is not a number *)

Lemma gt_NaN_l (m : number) : JS.gt JS.NaN m = false.
Proof. by destruct m. Qed.

Section ClaimTried.

Context (host : Host) (remote : Remote) (config : Config).

Lemma claim_tried_later id w wa wb w' :
  later w wa -> claim_tried config id wa wb -> later wb w' -> claim_tried config id w w'.
Proof.
  unfold claim_tried. intros [_ [h1 E1]] H [(Hc & _) [h2 E2]].
  destruct (Config.dryRun config).
  - by apply Hc.
  - destruct H as (h & E & Hin). exists (h2 ++ h ++ h1). split.
    + by rewrite E2, E, E1, !app_assoc.
    + apply elem_of_app. right. apply elem_of_app. by left.
Qed.

Lemma claimBounty_tries id w :
  claim_tried config id w (snd (claimBounty remote config id w)).
Proof.
  unfold claim_tried, claimBounty. destruct (Config.dryRun config); simpl.
  - unfold claimed. simpl. apply elem_of_union. left. by apply elem_of_singleton.
  - exists [Fetch (PostClaim (client config) id (Config.walletAddress config))].
    split; [|left].
    unfold try_catch, client_claimBounty, request, await, fetch.
    destruct (Remote.mutation remote _) as [res|m]; [|reflexivity].
    destruct (Response.ok res); [|reflexivity]. simpl.
    by destruct (Response.json res).
Qed.

Lemma claim_work_submit_tries bounty w :
  claim_tried config (Bounty.id bounty) w (snd (claim_work_submit remote config bounty w)).
Proof.
  pose proof (claimBounty_tries (Bounty.id bounty) w) as Ht.
  unfold claim_work_submit, await.
  destruct (claimBounty remote config (Bounty.id bounty) w) as [[ok|m] w1];
    simpl in *; [|done].
  eapply claim_tried_later; [reflexivity | exact Ht |].
  destruct ok; simpl; [|reflexivity].
  pose proof (keeps_generateWorkPlan remote config later (fun _ => True) (fun _ => True)
                bounty w1) as Hg.
  destruct (generateWorkPlan remote config bounty w1) as [[plan|m] w2]; simpl in *; [|done].
  etrans; [exact Hg|].
  pose proof (keeps_submitWork remote config later (fun _ => True) (fun _ => True)
                (Bounty.id bounty) plan
                (proof_reference (Config.walletAddress config) (Bounty.id bounty)) I w2) as Hs.
  by destruct (submitWork remote config _ _ _ w2) as [[r|m] w3].
Qed.

(** When a loop returns, the body has been run for each element. *)
Lemma for_of_reaches {A : Type} (l : list A) (body : A -> Promise unit) x w :
  (forall y, keeps later (body y)) ->
  fst (for_of l body w) = Returns tt ->
  x ∈ l ->
  exists wa, later w wa /\ later (snd (body x wa)) (snd (for_of l body w)).
Proof.
  intros Hb. revert w. induction l as [|y l IH]; intros w Hr Hx.
  - by apply elem_of_nil in Hx.
  - simpl in *. unfold await in *. pose proof (Hb y w) as Hy.
    destruct (body y w) as [[[]|m] w1] eqn:Ey; simpl in *; [|discriminate].
    apply elem_of_cons in Hx as [->|Hx].
    + exists w. split; [reflexivity|]. rewrite Ey. simpl.
      apply keeps_for_of; [apply _ | intros; apply Hb].
    + destruct (IH w1 Hr Hx) as (wa & H1 & H2). exists wa. split; [by etrans | done].
Qed.

End ClaimTried.

(** C10: when the reward string is no number, [Number(reward) / 1e6] is NaN
    and the test against the ceiling is false for every [maxReward]; the
    loop body for that bounty is then the claim step, and a cycle that
    returns has tried to claim every such bounty it judged suitable with
    confidence at least 0.6. *)
Theorem unparsable_reward_is_never_over_the_ceiling host remote config b :
  JS.nonempty (Bounty.reward b) = true ->
  Host.Number host (Bounty.reward b) = JS.NaN ->
  display_reward host b = JS.NaN
  /\ (forall m, JS.gt (display_reward host b) m = false)
  /\ exceeds_ceiling host config b = false
  /\ (forall ev, claim_body host remote config (b, ev) = claim_work_submit remote config b)
  /\ (forall ev w,
         claim_tried config (Bounty.id b) w (snd (claim_body host remote config (b, ev) w)))
  /\ (forall w evs w2 ev,
         steps_1_2 host remote config w = (Returns evs, w2) ->
         (b, ev) ∈ evs ->
         confident (b, ev) = true ->
         fst (runCycle host remote config w) = Returns tt ->
         claim_tried config (Bounty.id b) w (snd (runCycle host remote config w))).
Proof.
  intros Hne Hnan.
  assert (Hd : display_reward host b = JS.NaN).
  { unfold display_reward. by rewrite Hne, Hnan. }
  assert (Hx : exceeds_ceiling host config b = false).
  { unfold exceeds_ceiling. rewrite Hd. apply gt_NaN_l. }
  assert (Hbody : forall ev,
             claim_body host remote config (b, ev) = claim_work_submit remote config b).
  { intros ev. unfold claim_body. simpl. by rewrite Hx. }
  split; [exact Hd|]. split; [intros m; rewrite Hd; apply gt_NaN_l|].
  split; [exact Hx|]. split; [exact Hbody|]. split.
  - intros ev w. rewrite Hbody. apply claim_work_submit_tries.
  - intros w evs w2 ev E Hin Hconf Hr.
    assert (H12 : later w w2).
    { pose proof (keeps_steps_1_2 host remote config later (fun _ => True)
                    (fun _ => True) w (fun _ _ => I)) as H. by rewrite E in H. }
    rewrite runCycle_steps in *. unfold await in *. rewrite E in *.
    destruct (for_of_reaches (List.filter confident evs) (claim_body host remote config)
                (b, ev) w2) as (wa & H1 & H2); [|exact Hr| |].
    + intros e. intros w0.
      apply (keeps_claim_body host remote config later (fun _ => True) (fun _ => True) e I).
    + apply list_elem_of_In, filter_In. split; [by apply list_elem_of_In | done].
    + eapply claim_tried_later; [by etrans | | exact H2].
      rewrite Hbody. apply claim_work_submit_tries.
Qed.

Lemma unparsable_reward_is_never_over_the_ceiling_witness :
  let bounty := Sample.open_bounty "1" "Fix bug" "plenty" in
  let remote :=
    Sample.scripted [bounty] [Sample.says Sample.accept_json; Sample.says "done"]
      (Throws "down") in
  exceeds_ceiling Sample.host (Sample.config 1 false) bounty = false
  /\ Fetch (PostClaim DEFAULT_API_BASE "1" Sample.wallet)
     ∈ World.history (snd (runCycle Sample.host remote (Sample.config 1 false) initial_world)).
Proof.
  intros bounty remote.
  pose proof (unparsable_reward_is_never_over_the_ceiling Sample.host remote
                (Sample.config 1 false) bounty eq_refl eq_refl)
    as (_ & _ & Hx & _ & _ & Hcycle).
  split; [exact Hx|].
  destruct (Hcycle initial_world [(bounty, Sample.accept)]
              (snd (steps_1_2 Sample.host remote (Sample.config 1 false) initial_world))
              Sample.accept) as (h & E & Hin).
  - reflexivity.
  - left.
  - reflexivity.
  - reflexivity.
  - rewrite E. apply elem_of_app. by left.
Defined.

(** ** The loop *)

Section Loop.

Context (host : Host) (remote : Remote) (config : Config).

Lemma stop_grows : keeps grows stop.
Proof. intros w. by repeat split. Qed.

Lemma sleep_unfold ms w :
  sleep remote ms w
  = (Returns tt,
     World.mk
       (if Remote.stop_requested remote (SetTimeout ms :: World.history w)
        then set_running false (World.state w)
        else World.state w)
       (SetTimeout ms :: World.history w)).
Proof. unfold sleep. by destruct (Remote.stop_requested remote _). Qed.

Lemma sleep_grows ms : keeps grows (sleep remote ms).
Proof.
  intros w. rewrite sleep_unfold. simpl.
  destruct (Remote.stop_requested remote _); by repeat split.
Qed.

(** One iteration of the loop: the cycle, whose exception is dropped, then
    the wait. *)
Lemma loop_S fuel w :
  AgentState.isRunning (World.state w) = true ->
  loop host remote config (S fuel) w
  = loop host remote config fuel
      (snd (sleep remote (Config.pollInterval config)
              (snd (runCycle host remote config w)))).
Proof.
  intros Hrun. simpl. unfold await at 1. simpl. rewrite Hrun. simpl.
  unfold await at 1. rewrite snd_try_catch_ignore.
  unfold await at 1. by rewrite sleep_unfold.
Qed.

Lemma loop_stopped fuel w :
  AgentState.isRunning (World.state w) = false ->
  loop host remote config fuel w = (Returns Exited, w).
Proof. intros Hrun. destruct fuel; simpl; unfold await; simpl; by rewrite Hrun. Qed.

(** The loop never throws. *)
Lemma loop_returns fuel w :
  exists status w', loop host remote config fuel w = (Returns status, w').
Proof.
  revert w. induction fuel as [|fuel IH]; intros w.
  - simpl. unfold await. simpl.
    destruct (AgentState.isRunning (World.state w)); by eexists _, _.
  - destruct (AgentState.isRunning (World.state w)) eqn:Hrun.
    + rewrite loop_S by done. apply IH.
    + rewrite loop_stopped by done. by eexists _, _.
Qed.

(** The loop returns [Exited] or [Continues], and what it leaves has all the
    events of the world it started in. *)
Lemma loop_returns_later fuel w :
  exists status w' h,
    loop host remote config fuel w = (Returns status, w')
    /\ status <> AlreadyRunning
    /\ World.history w' = h ++ World.history w.
Proof.
  revert w. induction fuel as [|fuel IH]; intros w.
  - simpl. unfold await. simpl.
    destruct (AgentState.isRunning (World.state w)); simpl;
      eexists _, _, []; by repeat split.
  - destruct (AgentState.isRunning (World.state w)) eqn:Hrun.
    + rewrite loop_S by done.
      destruct (runCycle_history host remote config w) as [h1 E1].
      destruct (IH (snd (sleep remote (Config.pollInterval config)
                           (snd (runCycle host remote config w)))))
        as (status & w' & h & E & Hs & Hh).
      rewrite sleep_unfold in Hh. simpl in Hh. rewrite E1 in Hh.
      exists status, w',
        (h ++ SetTimeout (Config.pollInterval config) :: h1
           ++ [Fetch (GetBounties (client config))]).
      split; [exact E|]. split; [exact Hs|].
      rewrite Hh, <- !app_assoc. simpl. by rewrite <- app_assoc.
    + rewrite loop_stopped by done. eexists _, _, []. by repeat split.
Qed.

Lemma loop_grows fuel : keeps grows (loop host remote config fuel).
Proof.
  induction fuel as [|fuel IH]; intros w.
  - simpl. unfold await. simpl.
    by destruct (AgentState.isRunning (World.state w)).
  - destruct (AgentState.isRunning (World.state w)) eqn:Hrun.
    + rewrite loop_S by done.
      etrans; [apply runCycle_grows|]. etrans; [apply sleep_grows | apply IH].
    + by rewrite loop_stopped.
Qed.

Lemma startLoop_unfold fuel w :
  startLoop host remote config fuel w
  = if AgentState.isRunning (World.state w) then (Returns AlreadyRunning, w)
    else loop host remote config fuel
           (World.mk (set_running true (World.state w)) (World.history w)).
Proof.
  unfold startLoop, await. simpl.
  by destruct (AgentState.isRunning (World.state w)).
Qed.

Lemma startLoop_grows fuel : keeps grows (startLoop host remote config fuel).
Proof.
  intros w. rewrite startLoop_unfold.
  destruct (AgentState.isRunning (World.state w)); [reflexivity|].
  etrans; [|apply loop_grows]. by repeat split.
Qed.

Lemma runCycle_same_flag w : same_flag w (snd (runCycle host remote config w)).
Proof.
  by apply (keeps_runCycle host remote config same_flag (fun _ => True) (fun _ => True)).
Qed.

Lemma perform_grows w op : grows w (perform host remote config w op).
Proof.
  destruct op; simpl.
  - apply (keeps_discoverBounties remote config grows (fun _ => True) (fun _ => True)).
  - apply (keeps_evaluateBounty host remote config grows (fun _ => True) (fun _ => True)).
  - by apply (keeps_claimBounty remote config grows (fun _ => True) (fun _ => True)).
  - apply (keeps_generateWorkPlan remote config grows (fun _ => True) (fun _ => True)).
  - by apply (keeps_submitWork remote config grows (fun _ => True) (fun _ => True)).
  - apply runCycle_grows.
  - apply startLoop_grows.
  - apply stop_grows.
  - reflexivity.
Qed.

Lemma perform_all_grows w ops : grows w (perform_all host remote config w ops).
Proof.
  unfold perform_all. revert w. induction ops as [|op ops IH]; intros w; simpl.
  - reflexivity.
  - etrans; [apply perform_grows | apply IH].
Qed.

End Loop.

(** C7: when a cycle throws while the agent is running, the loop drops the
    exception and makes the wait for the poll interval: one iteration ends in
    the state the cycle had reached when it threw, with the wait added to the
    history, and so does [startLoop] called while the agent is not running.
    Unless [stop()] was called during that wait, the agent is still running
    and the second iteration runs the next cycle, whose listing request
    follows the wait, and waits again; every longer run has all of this in
    its history.  Neither the loop nor [startLoop] ever ends by an
    exception. *)
Theorem cycle_error_does_not_end_the_loop host remote config w m w1 :
  AgentState.isRunning (World.state w) = true ->
  runCycle host remote config w = (Throws m, w1) ->
  let poll := Config.pollInterval config in
  let stopped (v : World) :=
    Remote.stop_requested remote (SetTimeout poll :: World.history v) in
  let waited (v : World) :=
    World.mk (if stopped v then set_running false (World.state v) else World.state v)
      (SetTimeout poll :: World.history v) in
  let status (v : World) := if stopped v then Exited else Continues in
  let idle := World.mk (set_running false (World.state w)) (World.history w) in
  let w3 := snd (runCycle host remote config (waited w1)) in
  loop host remote config 1 w = (Returns (status w1), waited w1)
  /\ startLoop host remote config 1 idle = (Returns (status w1), waited w1)
  /\ (stopped w1 = false ->
      AgentState.isRunning (World.state (waited w1)) = true
      /\ (exists h, World.history w3
                    = h ++ Fetch (GetBounties (client config))
                        :: SetTimeout poll :: World.history w1)
      /\ loop host remote config 2 w = (Returns (status w3), waited w3)
      /\ startLoop host remote config 2 idle = (Returns (status w3), waited w3)
      /\ (forall fuel, exists st w' h,
             loop host remote config (S (S fuel)) w = (Returns st, w')
             /\ st <> AlreadyRunning
             /\ World.history w' = h ++ SetTimeout poll :: World.history w3)
      /\ (forall fuel,
             loop host remote config (S (S fuel)) w
             = loop host remote config fuel (waited w3)))
  /\ (forall fuel,
         loop host remote config (S fuel) w = loop host remote config fuel (waited w1))
  /\ (forall fuel,
         startLoop host remote config fuel idle = loop host remote config fuel w)
  /\ (forall n w0, exists st w',
         startLoop host remote config n w0 = (Returns st, w')).
Proof.
  intros Hrun E poll stopped waited status idle w3.
  assert (Hw1 : snd (runCycle host remote config w) = w1) by (by rewrite E).
  assert (Hsleep : forall v, snd (sleep remote poll v) = waited v).
  { intros v. by rewrite sleep_unfold. }
  assert (Hstep : forall v k,
             AgentState.isRunning (World.state v) = true ->
             loop host remote config (S k) v
             = loop host remote config k (waited (snd (runCycle host remote config v)))).
  { intros v k Hv. rewrite loop_S by done. by rewrite Hsleep. }
  assert (Hend : forall v,
             AgentState.isRunning (World.state v) = true ->
             loop host remote config 0 (waited v) = (Returns (status v), waited v)).
  { intros v Hv. unfold waited, status. simpl. unfold await. simpl.
    destruct (stopped v); simpl; [reflexivity | by rewrite Hv]. }
  assert (Hflag : forall v,
             AgentState.isRunning (World.state (snd (runCycle host remote config v)))
             = AgentState.isRunning (World.state v)).
  { intros v. apply (runCycle_same_flag host remote config v). }
  assert (Hrun1 : AgentState.isRunning (World.state w1) = true).
  { rewrite <- Hw1, Hflag. exact Hrun. }
  assert (Hstart : forall k,
             startLoop host remote config k idle = loop host remote config k w).
  { intros k. rewrite startLoop_unfold. simpl. f_equal.
    destruct w as [[c d s r] h]. simpl in *. by subst r. }
  assert (H1 : loop host remote config 1 w = (Returns (status w1), waited w1)).
  { rewrite Hstep, Hw1 by done. by apply Hend. }
  split; [exact H1|]. split; [by rewrite Hstart|]. split; [|split; [|split]].
  - intros Hgo.
    assert (Hrun2 : AgentState.isRunning (World.state (waited w1)) = true).
    { unfold waited. rewrite Hgo. exact Hrun1. }
    assert (Hrun3 : AgentState.isRunning (World.state w3) = true).
    { unfold w3. rewrite Hflag. exact Hrun2. }
    assert (H2 : loop host remote config 2 w = (Returns (status w3), waited w3)).
    { rewrite Hstep, Hw1 by done. rewrite Hstep by done. by apply Hend. }
    split; [exact Hrun2|]. split; [|split; [exact H2|split; [by rewrite Hstart|]]].
    + destruct (runCycle_history host remote config (waited w1)) as [h Eh].
      exists h. exact Eh.
    + split; intros fuel; rewrite Hstep, Hw1 by done; rewrite Hstep by done;
        [apply loop_returns_later | reflexivity].
  - intros fuel. rewrite Hstep by done. by rewrite Hw1.
  - exact Hstart.
  - intros n w0. rewrite startLoop_unfold.
    destruct (AgentState.isRunning (World.state w0)); [by eexists _, _|].
    apply loop_returns.
Qed.

Lemma cycle_error_does_not_end_the_loop_witness :
  let bounty := Sample.open_bounty "1" "Fix bug" "50000000" in
  let remote := Sample.scripted [bounty] [Sample.says Sample.accept_json] (Throws "down") in
  let config := Sample.config 100 false in
  let poll := Config.pollInterval config in
  let w := World.mk (set_running true initial_state) [] in
  let w1 := snd (runCycle Sample.host remote config w) in
  let w2 := World.mk (World.state w1) (SetTimeout poll :: World.history w1) in
  let w3 := snd (runCycle Sample.host remote config w2) in
  fst (runCycle Sample.host remote config w) = Throws "down"
  /\ loop Sample.host remote config 1 w = (Returns Continues, w2)
  /\ loop Sample.host remote config 2 w
     = (Returns Continues,
        World.mk (World.state w3) (SetTimeout poll :: World.history w3)).
Proof.
  intros bounty remote config poll w w1 w2 w3.
  pose proof (cycle_error_does_not_end_the_loop Sample.host remote config w "down" w1
                eq_refl eq_refl) as (H1 & _ & H2 & _).
  split; [reflexivity|]. split; [exact H1|].
  exact (proj1 (proj2 (proj2 (H2 eq_refl)))).
Defined.

(** ** Monotone tracking *)

(** C8: through any sequence of calls of the agent's operations the three
    sets only grow, so an identifier that is in one of them stays tracked;
    and a cycle started in any later state does not evaluate a task whose
    identifier is tracked. *)
Theorem tracking_sets_only_grow host remote config ops w id :
  let w' := perform_all host remote config w ops in
  claimed w ⊆ claimed w'
  /\ completed w ⊆ completed w'
  /\ skipped w ⊆ skipped w'
  /\ (id ∈ tracked w ->
      id ∈ tracked w'
      /\ (forall bs w1, discoverBounties remote config w' = (Returns bs, w1) ->
                        id ∉ map Bounty.id bs)
      /\ (forall evs w2, steps_1_2 host remote config w' = (Returns evs, w2) ->
                         id ∉ evaluated_ids evs)).
Proof.
  intros w'. pose proof (perform_all_grows host remote config w ops) as Hg.
  fold w' in Hg. destruct Hg as (Hc & Hd & Hs).
  split; [exact Hc|]. split; [exact Hd|]. split; [exact Hs|].
  intros Hid.
  assert (Hid' : id ∈ tracked w') by (by apply (tracked_grows w w' id)).
  split; [exact Hid'|]. split.
  - intros bs w1 E Hin. apply list_elem_of_In, in_map_iff in Hin as (b & <- & Hb).
    apply list_elem_of_In in Hb.
    by apply (discoverBounties_untracked remote config w' bs w1 b E Hb).
  - intros evs w2 E Hin.
    destruct (steps_1_2_inv host remote config w' evs w2 E) as (_ & _ & _ & Hfresh).
    unfold evaluated_ids in Hin.
    apply list_elem_of_In, in_map_iff in Hin as (e & <- & He).
    apply list_elem_of_In in He. by apply (Hfresh e He).
Qed.

Lemma tracking_sets_only_grow_witness :
  let bounty := Sample.open_bounty "1" "Fix bug" "50000000" in
  let remote := Sample.scripted [bounty] [Sample.says Sample.reject_json] (Throws "down") in
  let config := Sample.config 100 false in
  let w := snd (runCycle Sample.host remote config initial_world) in
  "1" ∈ tracked w
  /\ "1" ∈ tracked
       (perform_all Sample.host remote config w
          [call_runCycle; call_stop; call_claimBounty "2"; call_startLoop 2]).
Proof.
  intros bounty remote config w.
  assert (H : "1" ∈ tracked w) by (apply (bool_decide_unpack _); vm_compute; reflexivity).
  split; [exact H|].
  exact (proj1 (proj2 (proj2 (proj2
    (tracking_sets_only_grow Sample.host remote config
       [call_runCycle; call_stop; call_claimBounty "2"; call_startLoop 2] w "1"))) H)).
Defined.

(** ** Two cycles in a row *)

Section Idempotence.

Context (host : Host) (remote : Remote) (config : Config).

(** A cycle whose listing holds no unprocessed open task only sends the
    listing request. *)
Lemma runCycle_nothing_new w :
  (forall listing,
      accepted
        (Remote.bounties remote
           (Fetch (GetBounties (client config)) :: World.history w))
        listing ->
      discovered (World.state w) listing = []) ->
  snd (runCycle host remote config w) = sent (GetBounties (client config)) w.
Proof.
  intros Hnone. unfold runCycle, await. rewrite discoverBounties_unfold.
  destruct (Remote.bounties remote _) as [res|m] eqn:Ea; [|reflexivity].
  destruct (Response.ok res) eqn:Hok; [|reflexivity].
  destruct (Response.json res) as [listing|m] eqn:Hj; [|reflexivity].
  rewrite (Hnone listing); [reflexivity|]. by exists res.
Qed.

Lemma discovered_nil s listing :
  (forall b, b ∈ listing ->
             JS.nonempty (Bounty.title b) = true ->
             Bounty.status b = "open" ->
             unprocessed s b = false) ->
  discovered s listing = [].
Proof.
  intros H. unfold discovered.
  destruct (List.filter (unprocessed s) _) as [|b l] eqn:E; [reflexivity|].
  assert (Hb : In b (b :: l)) by (by left). rewrite <- E in Hb.
  apply filter_In in Hb as [Hb Hu]. apply filter_In in Hb as [Hb Ho].
  apply filter_In in Hb as [Hb Ht]. apply String.eqb_eq in Ho.
  apply list_elem_of_In in Hb. rewrite (H b Hb Ht Ho) in Hu. discriminate.
Qed.

End Idempotence.

(** C1, as amended: two calls of [runCycle] in a row.  When every open task
    that the second listing holds is, after the first call, in one of the
    three sets, the second call leaves the state as it is and sends nothing
    but the listing request.  That is the case when the second listing
    holds no task that the first did not hold, and the first call
    discovered at most five tasks and judged each of them unsuitable. *)
Theorem second_cycle_adds_nothing_when_all_listed_are_tracked host remote config w :
  let w1 := snd (runCycle host remote config w) in
  let w2 := snd (runCycle host remote config w1) in
  let first :=
    Remote.bounties remote (Fetch (GetBounties (client config)) :: World.history w) in
  let second :=
    Remote.bounties remote (Fetch (GetBounties (client config)) :: World.history w1) in
  ((forall listing b,
       accepted second listing ->
       b ∈ listing ->
       JS.nonempty (Bounty.title b) = true ->
       Bounty.status b = "open" ->
       Bounty.id b ∈ tracked w1) ->
   World.state w2 = World.state w1
   /\ claimed w2 = claimed w1
   /\ completed w2 = completed w1
   /\ skipped w2 = skipped w1
   /\ World.history w2 = Fetch (GetBounties (client config)) :: World.history w1)
  /\ (forall listing1 listing2 evs w',
         accepted first listing1 ->
         accepted second listing2 ->
         (forall b, b ∈ listing2 -> b ∈ listing1) ->
         (length (discovered (World.state w) listing1) <= 5)%nat ->
         steps_1_2 host remote config w = (Returns evs, w') ->
         (forall e, e ∈ evs -> EvaluationResult.suitable (snd e) = false) ->
         World.state w2 = World.state w1).
Proof.
  intros w1 w2 first second.
  assert (Hfirst :
    (forall listing b,
        accepted second listing ->
        b ∈ listing ->
        JS.nonempty (Bounty.title b) = true ->
        Bounty.status b = "open" ->
        Bounty.id b ∈ tracked w1) ->
    w2 = sent (GetBounties (client config)) w1).
  { intros Hall. apply runCycle_nothing_new. intros listing Ha. apply discovered_nil.
    intros b Hb Ht Ho. specialize (Hall listing b Ha Hb Ht Ho).
    destruct (unprocessed (World.state w1) b) eqn:Hu; [|reflexivity].
    destruct w1 as [s h]. by apply (unprocessed_untracked s h) in Hu. }
  split.
  - intros Hall. rewrite (Hfirst Hall). by repeat split.
  - intros listing1 listing2 evs w' (res1 & Ha1 & Hok1 & Hj1) Ha2 Hsub Hlen E Hunsuit.
    rewrite Hfirst; [reflexivity|].
    intros listing b Ha Hb Ht Ho.
    assert (listing = listing2) as ->.
    { destruct Ha as (r & Hr & _ & Hjr), Ha2 as (r2 & Hr2 & _ & Hjr2). congruence. }
    apply Hsub in Hb.
    assert (Hg : grows w w1) by apply runCycle_grows.
    destruct (unprocessed (World.state w) b) eqn:Hu.
    + assert (Hd : discoverBounties remote config w
                   = (Returns (discovered (World.state w) listing1),
                      sent (GetBounties (client config)) w)).
      { rewrite discoverBounties_unfold. fold first. by rewrite Ha1, Hok1, Hj1. }
      destruct (steps_1_2_inv host remote config w evs w' E) as (_ & _ & Hs & _).
      assert (Hm : map fst evs = discovered (World.state w) listing1).
      { unfold steps_1_2, await in E. rewrite Hd in E.
        destruct (evaluate_loop_returns host remote config
                    (firstn 5 (discovered (World.state w) listing1)) []
                    (sent (GetBounties (client config)) w))
          as (evs' & w'' & E' & Hm & _).
        rewrite E' in E. injection E as <- _. rewrite Hm. by apply firstn_all2. }
      assert (Hin : exists ev, (b, ev) ∈ evs).
      { assert (Hbd : In b (map fst evs)).
        { rewrite Hm. unfold discovered. apply list_elem_of_In in Hb.
          repeat (apply filter_In; split); try done. by apply String.eqb_eq. }
        apply in_map_iff in Hbd as ([b' ev] & <- & He).
        exists ev. by apply list_elem_of_In. }
      destruct Hin as [ev Hin].
      assert (Hsk : Bounty.id b ∈ skipped w').
      { apply Hs. right. exists b, ev. repeat split; [done|]. by apply (Hunsuit (b, ev)). }
      assert (Hg' : grows w' w1).
      { unfold w1. rewrite runCycle_steps. unfold await. rewrite E.
        apply keeps_for_of; [apply _|]. intros e _.
        by apply (keeps_claim_body host remote config grows (fun _ => True) (fun _ => True)). }
      unfold tracked. apply elem_of_union. right. by apply Hg'.
    + apply (tracked_grows w w1 _ Hg).
      destruct w as [s h]. simpl in Hu.
      destruct (decide (Bounty.id b ∈ tracked (World.mk s h))) as [Hin|Hout]; [done|].
      apply (unprocessed_untracked s h) in Hout. congruence.
Qed.

Lemma second_cycle_adds_nothing_when_all_listed_are_tracked_witness :
  let bounty := Sample.open_bounty "1" "Fix bug" "50000000" in
  let remote :=
    Sample.scripted [bounty] [Sample.says Sample.accept_json; Sample.says "done"]
      (Throws "down") in
  let config := Sample.config 100 false in
  let w1 := snd (runCycle Sample.host remote config initial_world) in
  let w2 := snd (runCycle Sample.host remote config w1) in
  "1" ∈ claimed w1 /\ "1" ∈ completed w1 /\ World.state w2 = World.state w1.
Proof.
  intros bounty remote config w1 w2.
  assert (Hc : "1" ∈ claimed w1) by (apply (bool_decide_unpack _); vm_compute; reflexivity).
  split; [exact Hc|]. split; [apply (bool_decide_unpack _); vm_compute; reflexivity|].
  refine (proj1 (proj1
    (second_cycle_adds_nothing_when_all_listed_are_tracked Sample.host remote config
       initial_world) _)).
  intros listing b (res & Ha & Hok & Hj) Hb _ _.
  injection Ha as <-. injection Hj as <-.
  apply list_elem_of_singleton in Hb as ->.
  unfold tracked. apply elem_of_union. left. apply elem_of_union. left. exact Hc.
Defined.

(** C1, as stated, fails: the listing below holds six open tasks and does
    not change; every evaluation fails, so the first call skips the first
    five tasks and the second call skips the sixth. *)
Lemma second_cycle_skips_the_sixth_task :
  let listing :=
    map (fun id => Sample.open_bounty id "Fix bug" "50000000")
      ["1"; "2"; "3"; "4"; "5"; "6"] in
  let remote := Sample.scripted listing [] (Throws "down") in
  let config := Sample.config 100 false in
  let w1 := snd (runCycle Sample.host remote config initial_world) in
  let w2 := snd (runCycle Sample.host remote config w1) in
  ("6" ∉ skipped w1) /\ "6" ∈ skipped w2 /\ skipped w2 <> skipped w1.
Proof.
  intros listing remote config w1 w2.
  assert (H1 : "6" ∉ skipped w1) by (apply (bool_decide_unpack _); vm_compute; reflexivity).
  assert (H2 : "6" ∈ skipped w2) by (apply (bool_decide_unpack _); vm_compute; reflexivity).
  split; [exact H1|]. split; [exact H2|]. intros E. rewrite E in H2. by apply H1.
Qed.

(** ** The scenarios of the specification *)

(** A task of 50 display units, judged suitable with confidence 0.8, under a
    ceiling of 100: claimed and submitted. *)
Example scenario_within_ceiling :
  let bounty := Sample.open_bounty "1" "Fix bug" "50000000" in
  let remote :=
    Sample.scripted [bounty] [Sample.says Sample.accept_json; Sample.says "done"]
      (Throws "down") in
  let w := snd (runCycle Sample.host remote (Sample.config 100 false) initial_world) in
  claimed w = {["1"]} /\ completed w = {["1"]} /\ skipped w = ∅
  /\ World.history w
     = [ Fetch (PostSubmit DEFAULT_API_BASE "1" Sample.wallet "done"
                  "https://github.com/0x123456/bounty-1");
         Fetch (work_plan_request (Sample.config 100 false) bounty);
         Fetch (PostClaim DEFAULT_API_BASE "1" Sample.wallet);
         Fetch (evaluation_request (Sample.config 100 false) bounty);
         Fetch (GetBounties DEFAULT_API_BASE) ].
Proof. repeat split; vm_compute; reflexivity. Qed.

(** The same task under a ceiling of 10: evaluated, then left alone. *)
Example scenario_over_ceiling :
  let bounty := Sample.open_bounty "1" "Fix bug" "50000000" in
  let remote :=
    Sample.scripted [bounty] [Sample.says Sample.accept_json; Sample.says "done"]
      (Throws "down") in
  let w := snd (runCycle Sample.host remote (Sample.config 10 false) initial_world) in
  claimed w = ∅ /\ completed w = ∅ /\ skipped w = ∅
  /\ World.history w
     = [ Fetch (evaluation_request (Sample.config 10 false) bounty);
         Fetch (GetBounties DEFAULT_API_BASE) ].
Proof. repeat split; vm_compute; reflexivity. Qed.

(** The evaluation call fails: the task is skipped. *)
Example scenario_evaluation_fails :
  let bounty := Sample.open_bounty "1" "Fix bug" "50000000" in
  let remote := Sample.scripted [bounty] [] (Throws "network error") in
  let w := snd (runCycle Sample.host remote (Sample.config 100 false) initial_world) in
  fst (steps_1_2 Sample.host remote (Sample.config 100 false) initial_world)
  = Returns [(bounty, evaluation_error "network error")]
  /\ claimed w = ∅ /\ completed w = ∅ /\ skipped w = {["1"]}.
Proof. repeat split; vm_compute; reflexivity. Qed.

(** * Further properties of the code *)

(** ** One task: claim, work plan, submit *)

Section OneTask.

Context (host : Host) (remote : Remote) (config : Config).

Lemma request_unfold {T : Type} (answer : list Event -> Outcome (Response T)) r w :
  request answer r w = (delivered (answer (Fetch r :: World.history w)), sent r w).
Proof.
  unfold request, await, fetch, sent, delivered.
  destruct (answer _) as [res|m]; [|reflexivity].
  destruct (Response.ok res); reflexivity.
Qed.

Lemma chat_reply_unfold messages w :
  chat remote config messages w
  = (chat_reply
       (Remote.completion remote
          (Fetch (PostChat (Config.openRouterApiKey config) (Config.model config) messages)
             :: World.history w)),
     sent (PostChat (Config.openRouterApiKey config) (Config.model config) messages) w).
Proof. by rewrite chat_unfold. Qed.

(** A live claim: one request; the identifier is recorded when, and only
    when, the request delivers a body. *)
Lemma claimBounty_live id w :
  Config.dryRun config = false ->
  claimBounty remote config id w
  = match delivered (Remote.mutation remote
                       (Fetch (claim_request config id) :: World.history w)) with
    | Returns _ =>
        (Returns true,
         World.mk (add_claimed id (World.state w))
           (Fetch (claim_request config id) :: World.history w))
    | Throws _ => (Returns false, sent (claim_request config id) w)
    end.
Proof.
  intros Hlive. unfold claimBounty, client_claimBounty, try_catch, await.
  rewrite Hlive, request_unfold. fold (claim_request config id).
  by destruct (delivered _).
Qed.

(** A live submit: one request; it never throws. *)
Lemma submitWork_live id submission proof w :
  Config.dryRun config = false ->
  let r := PostSubmit (client config) id (Config.walletAddress config) submission proof in
  submitWork remote config id submission proof w
  = match delivered (Remote.mutation remote (Fetch r :: World.history w)) with
    | Returns body =>
        (Returns (SubmissionResult.mk id submission proof (StatusBody.status body)),
         World.mk (add_completed id (World.state w)) (Fetch r :: World.history w))
    | Throws m =>
        (Returns (SubmissionResult.mk id submission proof ("error: " +:+ m)), sent r w)
    end.
Proof.
  intros Hlive r. unfold submitWork, client_submitBounty, try_catch, await.
  rewrite Hlive, request_unfold. fold r.
  by destruct (delivered _).
Qed.

End OneTask.

Section OneTaskLive.

Context (remote : Remote) (config : Config).

(** The whole of claim, work plan and submit for one task, on the live
    path, as a function of what the three requests deliver. *)
Lemma claim_work_submit_live bounty w :
  Config.dryRun config = false ->
  let id := Bounty.id bounty in
  let w1 :=
    World.mk (add_claimed id (World.state w))
      (Fetch (claim_request config id) :: World.history w) in
  let w2 := sent (work_plan_request config bounty) w1 in
  claim_work_submit remote config bounty w
  = match delivered (Remote.mutation remote
                       (Fetch (claim_request config id) :: World.history w)) with
    | Throws _ => (Returns tt, sent (claim_request config id) w)
    | Returns _ =>
        match chat_reply (Remote.completion remote (World.history w2)) with
        | Throws m => (Throws m, w2)
        | Returns workPlan =>
            match delivered (Remote.mutation remote
                               (Fetch (submit_request config id workPlan)
                                  :: World.history w2)) with
            | Throws _ => (Returns tt, sent (submit_request config id workPlan) w2)
            | Returns _ =>
                (Returns tt,
                 World.mk (add_completed id (World.state w2))
                   (Fetch (submit_request config id workPlan) :: World.history w2))
            end
        end
    end.
Proof.
  intros Hlive id w1 w2. unfold claim_work_submit. unfold await at 1.
  rewrite claimBounty_live by done. fold id.
  destruct (delivered (Remote.mutation remote _)) as [body|m]; [|reflexivity].
  change (negb true) with false. cbv iota. unfold await at 1. unfold generateWorkPlan.
  rewrite chat_reply_unfold. fold (work_plan_request config bounty). fold w1. fold w2.
  change (Fetch (work_plan_request config bounty) :: World.history w1)
    with (World.history w2).
  destruct (chat_reply _) as [workPlan|m]; [|reflexivity].
  unfold await. rewrite submitWork_live by done. cbv zeta.
  fold id. fold (submit_request config id workPlan).
  by destruct (delivered (Remote.mutation remote _)).
Qed.

End OneTaskLive.

Section OneTaskFacts.

Context (host : Host) (remote : Remote) (config : Config).

Lemma claimBounty_cases id w :
  (fst (claimBounty remote config id w) = Returns true
   /\ World.state (snd (claimBounty remote config id w)) = add_claimed id (World.state w))
  \/ (fst (claimBounty remote config id w) = Returns false
      /\ World.state (snd (claimBounty remote config id w)) = World.state w).
Proof.
  destruct (Config.dryRun config) eqn:Hdry.
  - left. unfold claimBounty. rewrite Hdry. by split.
  - rewrite claimBounty_live by done.
    destruct (delivered _); [left | right]; by split.
Qed.

Lemma submitWork_cases id submission proof w :
  exists r,
    fst (submitWork remote config id submission proof w) = Returns r
    /\ SubmissionResult.bountyId r = id
    /\ SubmissionResult.submission r = submission
    /\ SubmissionResult.proof r = proof
    /\ (World.state (snd (submitWork remote config id submission proof w))
        = add_completed id (World.state w)
        \/ World.state (snd (submitWork remote config id submission proof w))
           = World.state w).
Proof.
  destruct (Config.dryRun config) eqn:Hdry.
  - unfold submitWork. rewrite Hdry. eexists. repeat split. by left.
  - rewrite submitWork_live by done.
    destruct (delivered _); eexists; repeat split; [by left | by right].
Qed.

End OneTaskFacts.

(** X1: on the live path a claim request that fails (rejected, not 2xx, or
    without a JSON body) makes [claimBounty] return [false]; the task is
    then abandoned for the cycle without an exception: no work plan is asked
    for, nothing is submitted, and the state is as before, so the task is
    discovered again by the next cycle. *)
Theorem failed_claim_abandons_the_task remote config bounty w m :
  Config.dryRun config = false ->
  delivered
    (Remote.mutation remote
       (Fetch (claim_request config (Bounty.id bounty)) :: World.history w))
  = Throws m ->
  claimBounty remote config (Bounty.id bounty) w
  = (Returns false, sent (claim_request config (Bounty.id bounty)) w)
  /\ claim_work_submit remote config bounty w
     = (Returns tt, sent (claim_request config (Bounty.id bounty)) w)
  /\ unprocessed (World.state (snd (claim_work_submit remote config bounty w))) bounty
     = unprocessed (World.state w) bounty.
Proof.
  intros Hlive Hfail.
  assert (E : claim_work_submit remote config bounty w
              = (Returns tt, sent (claim_request config (Bounty.id bounty)) w)).
  { rewrite claim_work_submit_live by done. by rewrite Hfail. }
  split; [|split; [exact E|by rewrite E]].
  rewrite claimBounty_live by done. by rewrite Hfail.
Qed.

Lemma failed_claim_abandons_the_task_witness :
  let remote := Case.picky [Case.bug] [] (Throws "down") false true in
  claim_work_submit remote (Sample.config 100 false) Case.bug initial_world
  = (Returns tt,
     World.mk initial_state [Fetch (PostClaim DEFAULT_API_BASE "1" Sample.wallet)]).
Proof.
  intros remote.
  exact (proj1 (proj2
    (failed_claim_abandons_the_task remote (Sample.config 100 false) Case.bug
       initial_world "Bounty API 409: already claimed" eq_refl eq_refl))).
Defined.

(** X2: [submitWork] never throws and always echoes the identifier, the
    submission and the proof; on the live path a submit request that fails
    is reported as the status "error: <message>", and [completed] is left as
    it was. *)
Theorem failed_submit_is_reported_not_thrown remote config id submission proof w :
  (exists r w',
      submitWork remote config id submission proof w = (Returns r, w')
      /\ SubmissionResult.bountyId r = id
      /\ SubmissionResult.submission r = submission
      /\ SubmissionResult.proof r = proof)
  /\ (forall m,
         Config.dryRun config = false ->
         delivered
           (Remote.mutation remote
              (Fetch (PostSubmit (client config) id (Config.walletAddress config)
                        submission proof)
                 :: World.history w))
         = Throws m ->
         submitWork remote config id submission proof w
         = (Returns (SubmissionResult.mk id submission proof ("error: " +:+ m)),
            sent (PostSubmit (client config) id (Config.walletAddress config)
                    submission proof) w)).
Proof.
  split.
  - destruct (submitWork_cases remote config id submission proof w)
      as (r & E & H1 & H2 & H3 & _).
    exists r, (snd (submitWork remote config id submission proof w)).
    split; [|done]. rewrite <- E. by destruct (submitWork _ _ _ _ _ _).
  - intros m Hlive Hfail. rewrite submitWork_live by done. cbv zeta. by rewrite Hfail.
Qed.

Lemma failed_submit_is_reported_not_thrown_witness :
  let remote := Case.picky [Case.bug] [] (Throws "down") true false in
  fst (submitWork remote (Sample.config 100 false) "1" "work" "link" initial_world)
  = Returns (SubmissionResult.mk "1" "work" "link" "error: Bounty API 500: try later").
Proof.
  intros remote.
  exact (f_equal fst (proj2
    (failed_submit_is_reported_not_thrown remote (Sample.config 100 false) "1" "work"
       "link" initial_world) "Bounty API 500: try later" eq_refl eq_refl)).
Defined.

(** X3: a failure of the work-plan call is not caught: once the claim has
    succeeded, [claim_work_submit] throws the error of the call, having sent
    no submit request; the task is left in [claimed] and not in [completed],
    and no later cycle submits it or completes it. *)
Theorem work_plan_failure_orphans_the_claim host remote config bounty w m n :
  let id := Bounty.id bounty in
  let w1 := snd (claimBounty remote config id w) in
  fst (claimBounty remote config id w) = Returns true ->
  chat_reply
    (Remote.completion remote
       (Fetch (work_plan_request config bounty) :: World.history w1))
  = Throws m ->
  id ∉ completed w ->
  let w2 := snd (claim_work_submit remote config bounty w) in
  claim_work_submit remote config bounty w
  = (Throws m, sent (work_plan_request config bounty) w1)
  /\ id ∈ claimed w2
  /\ (id ∉ completed w2)
  /\ (let w3 := snd (cycles host remote config n w2) in
      (id ∉ completed w3)
      /\ forall e, e ∈ World.history w3 -> mutates id e = true -> e ∈ World.history w2).
Proof.
  intros id w1 Hclaim Hplan Hnot w2.
  assert (Hstate : World.state w1 = add_claimed id (World.state w)).
  { destruct (claimBounty_cases remote config id w) as [[_ H]|[H _]]; [exact H|].
    rewrite Hclaim in H. discriminate. }
  assert (E : claim_work_submit remote config bounty w
              = (Throws m, sent (work_plan_request config bounty) w1)).
  { unfold claim_work_submit, await. fold id. unfold w1 in *.
    destruct (claimBounty remote config id w) as [[ok|m'] w'] eqn:Ec; simpl in *;
      [|discriminate].
    injection Hclaim as ->. simpl. unfold generateWorkPlan.
    rewrite chat_reply_unfold. fold (work_plan_request config bounty).
    by rewrite Hplan. }
  assert (Hin : id ∈ claimed w2).
  { unfold w2. rewrite E. unfold claimed. simpl. rewrite Hstate. simpl.
    apply elem_of_union. left. by apply elem_of_singleton. }
  assert (Hout : id ∉ completed w2).
  { unfold w2. rewrite E. unfold completed. simpl. by rewrite Hstate. }
  split; [exact E|]. split; [exact Hin|]. split; [exact Hout|].
  intros w3.
  assert (Hq : quiet id w2 w3).
  { apply cycles_quiet. unfold tracked. apply elem_of_union. left.
    apply elem_of_union. by left. }
  destruct Hq as ((_ & Hco & Hev) & _). split; [|exact Hev].
  intros Hc. by apply Hout, Hco.
Qed.

Lemma work_plan_failure_orphans_the_claim_witness :
  let remote := Case.picky [Case.bug] [Sample.says Sample.accept_json] (Throws "down")
                  true true in
  let w2 := snd (runCycle Sample.host remote (Sample.config 100 false) initial_world) in
  let w3 := snd (cycles Sample.host remote (Sample.config 100 false) 2 w2) in
  fst (runCycle Sample.host remote (Sample.config 100 false) initial_world) = Throws "down"
  /\ "1" ∈ claimed w2 /\ ("1" ∉ completed w3).
Proof.
  intros remote w2 w3. split; [reflexivity|].
  pose (w0 := snd (steps_1_2 Sample.host remote (Sample.config 100 false) initial_world)).
  destruct (work_plan_failure_orphans_the_claim Sample.host remote
              (Sample.config 100 false) Case.bug w0 "down" 2)
    as (_ & Hin & _ & Hout & _).
  - reflexivity.
  - reflexivity.
  - apply (bool_decide_unpack _). vm_compute. reflexivity.
  - split; [exact Hin | exact Hout].
Defined.

(** X4: on the live path and for a wallet address of ASCII characters, when
    the claim request, the work-plan call and the submit request all succeed,
    the task ends in [claimed] and [completed] after exactly these three
    requests in this order; what is submitted is the reply of the oracle as
    it came, with the proof reference built from the first 8 characters of
    the wallet address and the identifier. *)
Theorem accepted_task_is_claimed_planned_and_submitted
    remote config bounty w claimBody workPlan submitBody :
  Config.dryRun config = false ->
  lacks non_ascii (Config.walletAddress config) = true ->
  let id := Bounty.id bounty in
  let h1 := Fetch (claim_request config id) :: World.history w in
  let h2 := Fetch (work_plan_request config bounty) :: h1 in
  let h3 :=
    Fetch (PostSubmit (client config) id (Config.walletAddress config) workPlan
             ("https://github.com/" +:+ JS.slice0 8 (Config.walletAddress config)
              +:+ "/bounty-" +:+ id))
      :: h2 in
  delivered (Remote.mutation remote h1) = Returns claimBody ->
  chat_reply (Remote.completion remote h2) = Returns workPlan ->
  delivered (Remote.mutation remote h3) = Returns submitBody ->
  claim_work_submit remote config bounty w
  = (Returns tt, World.mk (add_completed id (add_claimed id (World.state w))) h3).
Proof.
  intros Hlive _ id h1 h2 h3 Hc Hp Hs.
  rewrite claim_work_submit_live by done. fold id. fold h1. rewrite Hc.
  simpl World.history. fold h2. rewrite Hp.
  unfold submit_request, proof_reference. fold id. fold h3. by rewrite Hs.
Qed.

Lemma accepted_task_is_claimed_planned_and_submitted_witness :
  let remote := Case.picky [Case.bug] [Sample.says "All done."] (Throws "down") true true in
  let w := snd (claim_work_submit remote (Sample.config 100 false) Case.bug initial_world) in
  lacks non_ascii Sample.wallet = true
  /\ "1" ∈ claimed w /\ "1" ∈ completed w
  /\ hd_error (World.history w)
     = Some (Fetch (PostSubmit DEFAULT_API_BASE "1" Sample.wallet "All done."
                      "https://github.com/0x123456/bounty-1")).
Proof.
  intros remote w. split; [reflexivity|].
  pose proof (accepted_task_is_claimed_planned_and_submitted remote
                (Sample.config 100 false) Case.bug initial_world
                (StatusBody.mk "claimed") "All done." (StatusBody.mk "submitted")
                eq_refl eq_refl eq_refl eq_refl eq_refl) as E.
  unfold w. rewrite E.
  repeat split; first [reflexivity | apply (bool_decide_unpack _); vm_compute; reflexivity].
Defined.

(** ** Discovery *)

Lemma sublist_List_filter {A : Type} (f : A -> bool) (l : list A) :
  sublist (List.filter f l) l.
Proof.
  induction l as [|x l IH]; simpl; [constructor|].
  destruct (f x); by constructor.
Qed.

Lemma discoverBounties_delivered remote config w :
  discoverBounties remote config w
  = (match delivered (Remote.bounties remote
                        (Fetch (GetBounties (client config)) :: World.history w)) with
     | Returns listing => Returns (discovered (World.state w) listing)
     | Throws m => Throws m
     end,
     sent (GetBounties (client config)) w).
Proof.
  rewrite discoverBounties_unfold. unfold delivered.
  destruct (Remote.bounties remote _) as [res|m]; [|reflexivity].
  destruct (Response.ok res); [|reflexivity]. by destruct (Response.json res).
Qed.

(** X5: when the listing request delivers a list, [discoverBounties] returns
    the bounties of that list, in the order of the list, that have a
    non-empty title, the status "open" and an identifier in none of the
    three sets, and no others; it sends that one request and leaves the
    state alone. *)
Theorem discoverBounties_returns_the_new_open_bounties remote config w listing :
  delivered
    (Remote.bounties remote (Fetch (GetBounties (client config)) :: World.history w))
  = Returns listing ->
  exists bs,
    discoverBounties remote config w = (Returns bs, sent (GetBounties (client config)) w)
    /\ sublist bs listing
    /\ forall b, b ∈ bs <->
                 b ∈ listing
                 /\ Bounty.title b <> EmptyString
                 /\ Bounty.status b = "open"
                 /\ Bounty.id b ∉ tracked w.
Proof.
  intros Hd. exists (discovered (World.state w) listing).
  rewrite discoverBounties_delivered, Hd. split; [reflexivity|]. split.
  - unfold discovered. etrans; [apply sublist_List_filter|].
    etrans; apply sublist_List_filter.
  - intros b. unfold discovered.
    rewrite !list_elem_of_In, !filter_In, String.eqb_eq.
    destruct w as [s h]. rewrite (unprocessed_untracked s h). simpl.
    assert (Ht : JS.nonempty (Bounty.title b) = true <-> Bounty.title b <> EmptyString).
    { destruct (Bounty.title b); simpl; split; congruence. }
    rewrite Ht. tauto.
Qed.

Lemma discoverBounties_returns_the_new_open_bounties_witness :
  let closed := Bounty.mk "2" "Old" EmptyString "completed" "1" EmptyString [] None None None in
  let untitled := Sample.open_bounty "3" EmptyString "1" in
  let remote := Sample.scripted [closed; Case.bug; untitled] [] (Throws "down") in
  exists bs,
    fst (discoverBounties remote (Sample.config 100 false) initial_world) = Returns bs
    /\ Case.bug ∈ bs /\ (closed ∉ bs) /\ (untitled ∉ bs).
Proof.
  intros closed untitled remote.
  destruct (discoverBounties_returns_the_new_open_bounties remote
              (Sample.config 100 false) initial_world [closed; Case.bug; untitled]
              eq_refl) as (bs & E & _ & Hbs).
  exists bs. rewrite E. split; [reflexivity|]. split; [|split].
  - apply Hbs. split; [right; left|]. split; [discriminate|]. split; [reflexivity|].
    apply (bool_decide_unpack _). vm_compute. reflexivity.
  - intros (_ & _ & Hs & _)%Hbs. discriminate.
  - intros (_ & Ht & _)%Hbs. by apply Ht.
Defined.

(** X6: when the listing request fails, [runCycle] throws the error of the
    request, after that single request and without touching the state;
    for a status that is not 2xx the message is "Bounty API <status>:
    <text>".  Nothing is evaluated, claimed or submitted. *)
Theorem listing_failure_aborts_the_cycle host remote config w :
  let answer :=
    Remote.bounties remote (Fetch (GetBounties (client config)) :: World.history w) in
  (forall m,
      delivered answer = Throws m ->
      runCycle host remote config w = (Throws m, sent (GetBounties (client config)) w))
  /\ (forall res,
         answer = Returns res ->
         Response.ok res = false ->
         runCycle host remote config w
         = (Throws ("Bounty API " +:+ pretty (Response.status res) +:+ ": "
                    +:+ Response.text res),
            sent (GetBounties (client config)) w)).
Proof.
  intros answer.
  assert (H : forall m, delivered answer = Throws m ->
                        runCycle host remote config w
                        = (Throws m, sent (GetBounties (client config)) w)).
  { intros m Hd. unfold runCycle, await. rewrite discoverBounties_delivered.
    fold answer. by rewrite Hd. }
  split; [exact H|].
  intros res Ha Hok. apply H. unfold delivered. by rewrite Ha, Hok.
Qed.

Lemma listing_failure_aborts_the_cycle_witness :
  let remote :=
    {| Remote.bounties :=
         fun _ => Returns (Response.mk false 503%N "maintenance" (Throws "no body"));
       Remote.mutation := fun _ => Throws "down";
       Remote.completion := fun _ => Throws "down";
       Remote.stop_requested := fun _ => false |} in
  runCycle Sample.host remote (Sample.config 100 false) initial_world
  = (Throws "Bounty API 503: maintenance",
     World.mk initial_state [Fetch (GetBounties DEFAULT_API_BASE)]).
Proof.
  intros remote.
  exact (proj2 (listing_failure_aborts_the_cycle Sample.host remote
                  (Sample.config 100 false) initial_world) _ eq_refl eq_refl).
Defined.

(** ** The evaluation step *)

Section EvaluationStep.

Context (host : Host) (remote : Remote) (config : Config).

Lemma evaluate_loop_history batch evaluations w :
  World.history (snd (evaluate_loop host remote config batch evaluations w))
  = rev (map (fun b => Fetch (evaluation_request config b)) batch) ++ World.history w.
Proof.
  revert evaluations w. induction batch as [|b batch IH]; intros evaluations w; simpl;
    [reflexivity|].
  destruct (evaluateBounty_returns host remote config b w) as [r Er].
  rewrite (await_returns _ _ _ _ _ Er). unfold await at 1.
  destruct (EvaluationResult.suitable r); simpl; rewrite IH; simpl;
    by rewrite <- app_assoc.
Qed.


End EvaluationStep.

Lemma steps_1_2_delivered host remote config w listing :
  delivered
    (Remote.bounties remote (Fetch (GetBounties (client config)) :: World.history w))
  = Returns listing ->
  let batch := firstn 5 (discovered (World.state w) listing) in
  exists evs w2,
    steps_1_2 host remote config w = (Returns evs, w2)
    /\ map fst evs = batch
    /\ (length evs <= 5)%nat
    /\ World.history w2
       = rev (map (fun b => Fetch (evaluation_request config b)) batch)
         ++ Fetch (GetBounties (client config)) :: World.history w.
Proof.
  intros Hd batch.
  pose proof (evaluate_loop_history host remote config batch []
                (sent (GetBounties (client config)) w)) as Hh.
  destruct (evaluate_loop_returns host remote config batch []
              (sent (GetBounties (client config)) w)) as (evs & w2 & E & Hm & _).
  exists evs, w2. unfold steps_1_2, await.
  rewrite discoverBounties_delivered, Hd. fold batch. rewrite E in *. simpl in *.
  split; [reflexivity|]. split; [exact Hm|]. split; [|exact Hh].
  rewrite <- (length_map fst), Hm. unfold batch. rewrite length_take. lia.
Qed.

(** X7: steps 1 and 2 of a cycle send the listing request and then one
    evaluation request for each of the first five discovered bounties, in
    the order of the listing, and nothing else; at most five bounties are
    evaluated however many are listed. *)
Theorem evaluation_step_asks_once_per_task_and_for_five_at_most
    host remote config w listing :
  delivered
    (Remote.bounties remote (Fetch (GetBounties (client config)) :: World.history w))
  = Returns listing ->
  let batch := firstn 5 (discovered (World.state w) listing) in
  exists evs w2,
    steps_1_2 host remote config w = (Returns evs, w2)
    /\ map fst evs = batch
    /\ (length evs <= 5)%nat
    /\ World.history w2
       = rev (map (fun b => Fetch (evaluation_request config b)) batch)
         ++ Fetch (GetBounties (client config)) :: World.history w.
Proof. apply steps_1_2_delivered. Qed.

Lemma evaluation_step_asks_once_per_task_and_for_five_at_most_witness :
  let listing :=
    map (fun id => Sample.open_bounty id "Fix bug" "50000000")
      ["1"; "2"; "3"; "4"; "5"; "6"; "7"] in
  let remote := Sample.scripted listing [] (Throws "down") in
  exists evs w2,
    steps_1_2 Sample.host remote (Sample.config 100 false) initial_world = (Returns evs, w2)
    /\ map (fun e => Bounty.id (fst e)) evs = ["1"; "2"; "3"; "4"; "5"]
    /\ length (World.history w2) = 6%nat.
Proof.
  intros listing remote.
  destruct (evaluation_step_asks_once_per_task_and_for_five_at_most Sample.host remote
              (Sample.config 100 false) initial_world listing eq_refl)
    as (evs & w2 & E & Hm & _ & Hh).
  exists evs, w2. split; [exact E|]. split.
  - rewrite <- (map_map fst Bounty.id), Hm. reflexivity.
  - rewrite Hh. reflexivity.
Defined.



(** ** The confidence threshold *)

(** X9: a task judged suitable with a confidence that is not at least 0.6
    (below it, or NaN) is neither claimed nor skipped.  When the tasks
    evaluated in the cycle have pairwise distinct identifiers, its
    identifier is in none of the three sets after the cycle and no claim or
    submit request was sent for it, so the next cycle discovers and
    evaluates it again. *)
Theorem unconfident_task_is_left_untracked host remote config w evs w2 b ev :
  steps_1_2 host remote config w = (Returns evs, w2) ->
  (b, ev) ∈ evs ->
  EvaluationResult.suitable ev = true ->
  JS.ge (EvaluationResult.confidence ev) JS.lit_0_6 = false ->
  NoDup (evaluated_ids evs) ->
  let w' := snd (runCycle host remote config w) in
  (Bounty.id b ∉ claimed w')
  /\ (Bounty.id b ∉ completed w')
  /\ (Bounty.id b ∉ skipped w')
  /\ (forall e, e ∈ World.history w' -> mutates (Bounty.id b) e = true ->
                e ∈ World.history w)
  /\ unprocessed (World.state w') b = true.
Proof.
  intros E Hin Hsuit Hlow Hnd w'.
  destruct (steps_1_2_inv host remote config w evs w2 E) as (Hc & Hd & Hs & Hfresh).
  assert (Hw' : w' = snd (for_of (List.filter confident evs)
                            (claim_body host remote config) w2)).
  { unfold w'. rewrite runCycle_steps. unfold await. by rewrite E. }
  assert (H1 : quiet (Bounty.id b) w w2).
  { split.
    - pose proof (keeps_steps_1_2 host remote config (aloof (Bounty.id b))
                    (fun id => id <> Bounty.id b) (fun _ => True) w (fun _ _ => I)) as H.
      by rewrite E in H.
    - intros [Hi|(b' & ev' & Hin' & Hu & Hid)]%Hs; [done|].
      assert ((b', ev') = (b, ev)) as [= -> ->] by (by apply (evaluated_ids_inj evs)).
      congruence. }
  assert (H2 : quiet (Bounty.id b) w2 w').
  { rewrite Hw'. apply keeps_for_of; [apply _|].
    intros e He. apply list_elem_of_In, filter_In in He as [He Hconf].
    apply list_elem_of_In in He.
    apply (keeps_claim_body host remote config (quiet (Bounty.id b))
             (fun id => id <> Bounty.id b) (fun id => id <> Bounty.id b)).
    intros Heq.
    assert (e = (b, ev)) as -> by (by apply (evaluated_ids_inj evs)).
    unfold confident in Hconf. simpl in Hconf. by rewrite Hsuit, Hlow in Hconf. }
  assert (Hq : quiet (Bounty.id b) w w') by (by etrans).
  pose proof (Hfresh (b, ev) Hin) as Hnew. simpl in Hnew.
  destruct Hq as ((Hcl & Hco & Hev) & Hsk).
  unfold tracked in Hnew. rewrite !not_elem_of_union in Hnew.
  destruct Hnew as [[Hn1 Hn2] Hn3].
  assert (G1 : Bounty.id b ∉ claimed w') by (intros H; by apply Hn1, Hcl).
  assert (G2 : Bounty.id b ∉ completed w') by (intros H; by apply Hn2, Hco).
  assert (G3 : Bounty.id b ∉ skipped w') by (intros H; by apply Hn3, Hsk).
  split; [exact G1|]. split; [exact G2|]. split; [exact G3|]. split; [exact Hev|].
  destruct w' as [s h]. apply (unprocessed_untracked s h).
  unfold tracked. rewrite !not_elem_of_union. by repeat split.
Qed.

Lemma unconfident_task_is_left_untracked_witness :
  let remote := Sample.scripted [Case.bug] [Sample.says Timid.json] (Throws "down") in
  let w' := snd (runCycle Timid.host remote (Sample.config 100 false) initial_world) in
  ("1" ∉ claimed w') /\ ("1" ∉ skipped w')
  /\ unprocessed (World.state w') Case.bug = true.
Proof.
  intros remote w'.
  destruct (unconfident_task_is_left_untracked Timid.host remote (Sample.config 100 false)
              initial_world [(Case.bug, Timid.result)]
              (snd (steps_1_2 Timid.host remote (Sample.config 100 false) initial_world))
              Case.bug Timid.result) as (Hc & _ & Hs & _ & Hu).
  - reflexivity.
  - left.
  - reflexivity.
  - reflexivity.
  - apply (bool_decide_unpack _). vm_compute. reflexivity.
  - split; [exact Hc|]. split; [exact Hs | exact Hu].
Defined.

(** ** What a cycle throws, and what it keeps *)

Section CycleOutcome.

Context (host : Host) (remote : Remote) (config : Config).

Lemma claimBounty_returns id w :
  exists ok, fst (claimBounty remote config id w) = Returns ok.
Proof. destruct (claimBounty_cases remote config id w) as [[E _]|[E _]]; eauto. Qed.

(** [claim_work_submit] throws only out of the work-plan call, and then the
    task is claimed. *)
Lemma claim_work_submit_throws bounty w m :
  fst (claim_work_submit remote config bounty w) = Throws m ->
  let w' := snd (claim_work_submit remote config bounty w) in
  (exists h, World.history w' = Fetch (work_plan_request config bounty) :: h)
  /\ chat_reply (Remote.completion remote (World.history w')) = Throws m
  /\ Bounty.id bounty ∈ claimed w'.
Proof.
  unfold claim_work_submit, await.
  destruct (claimBounty_cases remote config (Bounty.id bounty) w) as [[E Hs]|[E Hs]];
    destruct (claimBounty remote config (Bounty.id bounty) w) as [[ok|m'] w1];
    simpl in E, Hs; try discriminate; injection E as ->; simpl; [|discriminate].
  unfold generateWorkPlan. rewrite chat_reply_unfold.
  fold (work_plan_request config bounty).
  destruct (chat_reply _) as [plan|m'] eqn:Hp.
  - pose proof (submitWork_cases remote config (Bounty.id bounty) plan
                  (proof_reference (Config.walletAddress config) (Bounty.id bounty))
                  (sent (work_plan_request config bounty) w1)) as (r & Er & _).
    destruct (submitWork _ _ _ _ _ _) as [[r'|m''] w3]; simpl in *; discriminate.
  - simpl. intros [= ->]. split; [by eexists|]. split; [exact Hp|].
    unfold claimed. simpl. rewrite Hs. simpl.
    apply elem_of_union. left. by apply elem_of_singleton.
Qed.

Lemma claim_work_submit_keeps_invariant bounty w :
  completed_was_claimed w ->
  completed_was_claimed (snd (claim_work_submit remote config bounty w)).
Proof.
  unfold completed_was_claimed, claim_work_submit, await. intros Hinv.
  destruct (claimBounty_cases remote config (Bounty.id bounty) w) as [[E Hs]|[E Hs]];
    destruct (claimBounty remote config (Bounty.id bounty) w) as [[ok|m'] w1];
    simpl in E, Hs; try discriminate; injection E as ->; simpl.
  - assert (H1 : completed w1 ⊆ claimed w1 /\ Bounty.id bounty ∈ claimed w1).
    { unfold completed, claimed. rewrite Hs. simpl. unfold completed, claimed in Hinv.
      set_solver. }
    destruct H1 as [H1 Hid].
    unfold generateWorkPlan. rewrite chat_reply_unfold.
    destruct (chat_reply _) as [plan|m']; [|exact H1]. simpl.
    pose proof (submitWork_cases remote config (Bounty.id bounty) plan
                  (proof_reference (Config.walletAddress config) (Bounty.id bounty))
                  (sent (work_plan_request config bounty) w1)) as (r & _ & _ & _ & _ & Hst).
    fold (work_plan_request config bounty) in *.
    destruct (submitWork _ _ _ _ _ _) as [[r'|m''] w3]; simpl in *;
      unfold completed, claimed in *; destruct Hst as [-> | ->]; simpl;
      try exact H1;
      (intros x [Hx|Hx]%elem_of_union;
       [apply elem_of_singleton in Hx as ->; exact Hid | by apply H1]).
  - unfold completed, claimed in *. by rewrite Hs.
Qed.

Lemma for_of_keeps_invariant {A : Type} (I : World -> Prop) (l : list A)
    (body : A -> Promise unit) :
  (forall x w, I w -> I (snd (body x w))) ->
  forall w, I w -> I (snd (for_of l body w)).
Proof.
  intros Hb. induction l as [|x l IH]; intros w Hw; simpl; [exact Hw|].
  unfold await. specialize (Hb x w Hw).
  destruct (body x w) as [[[]|m] w1]; simpl in *; [by apply IH | exact Hb].
Qed.

Lemma for_of_throws {A : Type} (l : list A) (body : A -> Promise unit) w m :
  fst (for_of l body w) = Throws m ->
  exists x wa, x ∈ l /\ body x wa = (Throws m, snd (for_of l body w)).
Proof.
  revert w. induction l as [|x l IH]; intros w; simpl; [discriminate|].
  unfold await. destruct (body x w) as [[[]|m'] w1] eqn:Eb; simpl.
  - intros H. destruct (IH w1 H) as (y & wa & Hy & E). exists y, wa. split; [by right|done].
  - intros [= ->]. exists x, w. split; [left|done].
Qed.

Lemma runCycle_keeps_invariant w :
  completed_was_claimed w -> completed_was_claimed (snd (runCycle host remote config w)).
Proof.
  intros Hinv. rewrite runCycle_steps. unfold await.
  assert (H12 : completed_was_claimed (snd (steps_1_2 host remote config w))).
  { destruct (steps_1_2 host remote config w) as [[evs|m] w2] eqn:E.
    - destruct (steps_1_2_inv host remote config w evs w2 E) as (Hc & Hd & _).
      unfold completed_was_claimed. simpl. by rewrite Hc, Hd.
    - unfold steps_1_2, await in E. rewrite discoverBounties_delivered in E.
      destruct (delivered _) as [listing|m'].
      + destruct (evaluate_loop_returns host remote config
                    (firstn 5 (discovered (World.state w) listing)) []
                    (sent (GetBounties (client config)) w)) as (evs & w' & E' & _).
        rewrite E' in E. discriminate.
      + by injection E as _ <-. }
  destruct (steps_1_2 host remote config w) as [[evs|m] w2]; simpl in *; [|exact H12].
  apply for_of_keeps_invariant; [|exact H12].
  intros e w0 Hw0. unfold claim_body.
  destruct (exceeds_ceiling host config (fst e)); [exact Hw0|].
  by apply claim_work_submit_keeps_invariant.
Qed.

End CycleOutcome.

(** X10: a cycle throws only when the listing request fails, or when the
    work-plan call fails for a task it has just claimed; in the second case
    the failed call is the last thing the cycle did and the task is in
    [claimed].  Failures of evaluations, claims and submits never make a
    cycle throw. *)
Theorem cycle_throws_only_from_listing_or_work_plan host remote config w m :
  fst (runCycle host remote config w) = Throws m ->
  let w' := snd (runCycle host remote config w) in
  (delivered
     (Remote.bounties remote (Fetch (GetBounties (client config)) :: World.history w))
   = Throws m
   /\ w' = sent (GetBounties (client config)) w)
  \/ (exists bounty h,
         World.history w' = Fetch (work_plan_request config bounty) :: h
         /\ chat_reply (Remote.completion remote (World.history w')) = Throws m
         /\ Bounty.id bounty ∈ claimed w').
Proof.
  intros Hthrow w'. unfold w' in *. clear w'.
  rewrite runCycle_steps in *. unfold await in *.
  destruct (steps_1_2 host remote config w) as [[evs|m'] w2] eqn:E; simpl in *.
  - right.
    destruct (for_of_throws _ _ _ _ Hthrow) as (e & wa & _ & Eb).
    unfold claim_body in Eb.
    destruct (exceeds_ceiling host config (fst e)); [discriminate|].
    pose proof (claim_work_submit_throws remote config (fst e) wa m) as H.
    rewrite Eb in H. simpl in H. destruct (H eq_refl) as ((h & Hh) & Hp & Hc).
    by exists (fst e), h.
  - left. injection Hthrow as ->.
    unfold steps_1_2, await in E. rewrite discoverBounties_delivered in E.
    destruct (delivered _) as [listing|m'].
    + destruct (evaluate_loop_returns host remote config
                  (firstn 5 (discovered (World.state w) listing)) []
                  (sent (GetBounties (client config)) w)) as (evs & w'' & E' & _).
      rewrite E' in E. discriminate.
    + by injection E as -> <-.
Qed.

Lemma cycle_throws_only_from_listing_or_work_plan_witness :
  let remote := Sample.scripted [Case.bug] [Sample.says Sample.accept_json] (Throws "down") in
  let w' := snd (runCycle Sample.host remote (Sample.config 100 false) initial_world) in
  exists bounty h,
    World.history w' = Fetch (work_plan_request (Sample.config 100 false) bounty) :: h
    /\ Bounty.id bounty ∈ claimed w'.
Proof.
  intros remote w'.
  destruct (cycle_throws_only_from_listing_or_work_plan Sample.host remote
              (Sample.config 100 false) initial_world "down" eq_refl)
    as [[H _]|(bounty & h & Hh & _ & Hc)].
  - discriminate H.
  - exists bounty, h. split; [exact Hh | exact Hc].
Defined.

Section LoopFacts.

Context (host : Host) (remote : Remote) (config : Config).

Lemma cycles_keep_invariant n w :
  completed_was_claimed w -> completed_was_claimed (snd (cycles host remote config n w)).
Proof.
  revert w. induction n as [|n IH]; intros w Hw; [exact Hw|].
  rewrite cycles_S. by apply IH, runCycle_keeps_invariant.
Qed.

Lemma loop_keeps_invariant fuel w :
  completed_was_claimed w -> completed_was_claimed (snd (loop host remote config fuel w)).
Proof.
  revert w. induction fuel as [|fuel IH]; intros w Hw.
  - simpl. unfold await. simpl. by destruct (AgentState.isRunning (World.state w)).
  - destruct (AgentState.isRunning (World.state w)) eqn:Hrun.
    + rewrite loop_S by done. apply IH. rewrite sleep_unfold. simpl.
      pose proof (runCycle_keeps_invariant host remote config w Hw) as H.
      by destruct (Remote.stop_requested remote _).
    + by rewrite loop_stopped.
Qed.

Lemma loop_continues fuel w :
  (forall h, Remote.stop_requested remote h = false) ->
  AgentState.isRunning (World.state w) = true ->
  exists w',
    loop host remote config fuel w = (Returns Continues, w')
    /\ AgentState.isRunning (World.state w') = true.
Proof.
  intros Hnostop. revert w. induction fuel as [|fuel IH]; intros w Hrun.
  - exists w. simpl. unfold await. simpl. by rewrite Hrun.
  - rewrite loop_S by done. apply IH. rewrite sleep_unfold, Hnostop. simpl.
    pose proof (runCycle_same_flag host remote config w) as H. unfold same_flag in H.
    congruence.
Qed.

Lemma loop_exited_is_stopped fuel w w' :
  loop host remote config fuel w = (Returns Exited, w') ->
  AgentState.isRunning (World.state w') = false.
Proof.
  revert w. induction fuel as [|fuel IH]; intros w.
  - simpl. unfold await. simpl.
    destruct (AgentState.isRunning (World.state w)) eqn:Hrun; simpl; [discriminate|].
    by intros [= <-].
  - destruct (AgentState.isRunning (World.state w)) eqn:Hrun.
    + rewrite loop_S by done. apply IH.
    + rewrite loop_stopped by done. by intros [= <-].
Qed.

End LoopFacts.

(** X11: what is completed has been claimed.  A cycle puts an identifier in
    [completed] only after it has put it in [claimed], so the inclusion of
    [completed] in [claimed] is kept by any number of cycles and by the
    loop; it holds in every state the loop reaches from a new agent. *)
Theorem cycles_complete_only_what_they_claimed host remote config w n fuel :
  completed_was_claimed w ->
  completed_was_claimed (snd (runCycle host remote config w))
  /\ completed_was_claimed (snd (cycles host remote config n w))
  /\ completed_was_claimed (snd (startLoop host remote config fuel w)).
Proof.
  intros Hw. split; [by apply runCycle_keeps_invariant|].
  split; [by apply cycles_keep_invariant|].
  rewrite startLoop_unfold.
  destruct (AgentState.isRunning (World.state w)); [exact Hw|].
  by apply loop_keeps_invariant.
Qed.

Lemma cycles_complete_only_what_they_claimed_witness :
  let remote :=
    Case.picky [Case.bug] [Sample.says Sample.accept_json; Sample.says "All done."]
      (Throws "down") true true in
  let w := snd (startLoop Sample.host remote (Sample.config 100 false) 3 initial_world) in
  completed w ⊆ claimed w.
Proof.
  intros remote w.
  refine (proj2 (proj2
    (cycles_complete_only_what_they_claimed Sample.host remote (Sample.config 100 false)
       initial_world 0 3 _))).
  unfold completed_was_claimed. intros x Hx. exact Hx.
Defined.

(** X12: [startLoop] on an agent that is running already returns at once and
    changes nothing.  Otherwise it sets the running flag and loops; as long
    as [stop()] is not called the loop does not end, whatever the cycles do:
    after any number of iterations the agent is still running. *)
Theorem loop_runs_until_stopped host remote config fuel w :
  (AgentState.isRunning (World.state w) = true ->
   startLoop host remote config fuel w = (Returns AlreadyRunning, w))
  /\ (AgentState.isRunning (World.state w) = false ->
      (forall h, Remote.stop_requested remote h = false) ->
      exists w',
        startLoop host remote config fuel w = (Returns Continues, w')
        /\ AgentState.isRunning (World.state w') = true)
  /\ (forall w',
         startLoop host remote config fuel w = (Returns Exited, w') ->
         AgentState.isRunning (World.state w') = false).
Proof.
  rewrite startLoop_unfold. split; [|split].
  - by intros ->.
  - intros -> Hnostop. by apply loop_continues.
  - intros w'. destruct (AgentState.isRunning (World.state w)); [discriminate|].
    apply loop_exited_is_stopped.
Qed.

Lemma loop_runs_until_stopped_witness :
  let remote := Sample.scripted [Case.bug] [] (Throws "down") in
  exists w',
    startLoop Sample.host remote (Sample.config 100 false) 4 initial_world
    = (Returns Continues, w')
    /\ AgentState.isRunning (World.state w') = true.
Proof.
  intros remote.
  exact (proj1 (proj2
    (loop_runs_until_stopped Sample.host remote (Sample.config 100 false) 4
       initial_world)) eq_refl (fun _ => eq_refl)).
Defined.

(** X13: a [stop()] called during the wait that follows a cycle ends the
    loop right after that wait: no further cycle is started, the running
    flag is cleared, and what the cycle did (or whether it threw) makes no
    difference. *)
Theorem stop_during_the_wait_ends_the_loop host remote config fuel w :
  AgentState.isRunning (World.state w) = true ->
  let w1 := snd (runCycle host remote config w) in
  Remote.stop_requested remote
    (SetTimeout (Config.pollInterval config) :: World.history w1) = true ->
  loop host remote config (S fuel) w
  = (Returns Exited,
     World.mk (set_running false (World.state w1))
       (SetTimeout (Config.pollInterval config) :: World.history w1)).
Proof.
  intros Hrun w1 Hstop. rewrite loop_S by done. fold w1.
  rewrite sleep_unfold, Hstop. simpl. by apply loop_stopped.
Qed.

Lemma stop_during_the_wait_ends_the_loop_witness :
  let remote :=
    {| Remote.bounties := fun _ => Sample.answer [];
       Remote.mutation := fun _ => Throws "down";
       Remote.completion := fun _ => Throws "down";
       Remote.stop_requested := fun _ => true |} in
  fst (startLoop Sample.host remote (Sample.config 100 false) 5 initial_world)
  = Returns Exited.
Proof.
  intros remote. rewrite startLoop_unfold. simpl.
  exact (f_equal fst
    (stop_during_the_wait_ends_the_loop Sample.host remote (Sample.config 100 false) 4
       (World.mk (set_running true initial_state) []) eq_refl eq_refl)).
Defined.

(** ** The other methods of the client *)

Section ClientFacts.

Context (toLowerCase : string -> string) (remote : Remote) (apiBase : string).

Lemma client_listBounties_unfold w :
  Client.listBounties remote apiBase w
  = (match delivered (Remote.bounties remote
                        (Fetch (GetBounties apiBase) :: World.history w)) with
     | Returns listing =>
         Returns (List.filter (fun b => JS.nonempty (Bounty.title b)) listing)
     | Throws m => Throws m
     end,
     sent (GetBounties apiBase) w).
Proof.
  unfold Client.listBounties, await. rewrite request_unfold.
  by destruct (delivered _).
Qed.

Lemma nonempty_iff s : JS.nonempty s = true <-> s <> EmptyString.
Proof. destruct s; simpl; split; congruence. Qed.


End ClientFacts.

(** The client of an agent is this client, at the agent's base address. *)
Lemma agent_client_listOpenBounties remote config :
  listOpenBounties remote config = Client.listOpenBounties remote (client config).
Proof. reflexivity. Qed.

(** X14: [getBounty] sends the listing request and passes its error on.  When
    a list is delivered, the result is a listed bounty with the asked
    identifier and a non-empty title, of whatever status, and the first such
    bounty of the list; it is [undefined] exactly when the list has no titled
    bounty with that identifier. *)
Theorem getBounty_finds_the_first_titled_match remote apiBase id w :
  let answer :=
    delivered (Remote.bounties remote (Fetch (GetBounties apiBase) :: World.history w)) in
  (forall m, answer = Throws m ->
             Client.getBounty remote apiBase id w = (Throws m, sent (GetBounties apiBase) w))
  /\ (forall listing,
         answer = Returns listing ->
         exists found,
           Client.getBounty remote apiBase id w
           = (Returns found, sent (GetBounties apiBase) w)
           /\ match found with
              | Some b =>
                  exists before after,
                    listing = before ++ b :: after
                    /\ Bounty.id b = id
                    /\ Bounty.title b <> EmptyString
                    /\ forall b', b' ∈ before ->
                                  Bounty.title b' <> EmptyString -> Bounty.id b' <> id
              | None =>
                  forall b', b' ∈ listing ->
                             Bounty.title b' <> EmptyString -> Bounty.id b' <> id
              end).
Proof.
  intros answer. unfold Client.getBounty, await. rewrite client_listBounties_unfold.
  fold answer. split.
  - intros m ->. reflexivity.
  - intros listing ->. eexists. split; [reflexivity|].
    induction listing as [|x listing IH]; simpl.
    + intros b' Hb'. by apply elem_of_nil in Hb'.
    + destruct (JS.nonempty (Bounty.title x)) eqn:Ht; simpl.
      * destruct (String.eqb (Bounty.id x) id) eqn:Hid.
        -- exists [], listing. apply String.eqb_eq in Hid. apply nonempty_iff in Ht.
           repeat split; try done. intros b' Hb'. by apply elem_of_nil in Hb'.
        -- apply String.eqb_neq in Hid.
           destruct (List.find _ _) as [b|].
           ++ destruct IH as (before & after & -> & Hb & Hbt & Hfirst).
              exists (x :: before), after. repeat split; try done.
              intros b' [->|Hb']%elem_of_cons; [done|by apply Hfirst].
           ++ intros b' [->|Hb']%elem_of_cons; [done|by apply IH].
      * assert (Hx : Bounty.title x = EmptyString) by (by destruct (Bounty.title x)).
        destruct (List.find _ _) as [b|].
        -- destruct IH as (before & after & -> & Hb & Hbt & Hfirst).
           exists (x :: before), after. repeat split; try done.
           intros b' [->|Hb']%elem_of_cons; [done|by apply Hfirst].
        -- intros b' [->|Hb']%elem_of_cons; [done|by apply IH].
Qed.

Lemma getBounty_finds_the_first_titled_match_witness :
  let done := Bounty.mk "7" "Ship it" EmptyString "completed" "1" EmptyString []
                None None None in
  let remote := Sample.scripted [Case.bug; done] [] (Throws "down") in
  exists found,
    fst (Client.getBounty remote DEFAULT_API_BASE "7" initial_world) = Returns found
    /\ found <> None.
Proof.
  intros done remote.
  destruct (proj2 (getBounty_finds_the_first_titled_match remote DEFAULT_API_BASE "7"
                     initial_world) [Case.bug; done] eq_refl) as (found & E & Hf).
  exists found. rewrite E. split; [reflexivity|].
  destruct found; [discriminate|]. exfalso.
  apply (Hf done); [right; left | discriminate | reflexivity].
Defined.



(** X16: [filterByTag] returns, in the order of the delivered list, exactly
    the titled bounties one of whose tags equals the asked tag once both are
    lowered; a tag must match as a whole, and a bounty without tags is never
    returned. *)
Theorem filterByTag_matches_whole_tags toLowerCase remote apiBase tag w listing :
  delivered (Remote.bounties remote (Fetch (GetBounties apiBase) :: World.history w))
  = Returns listing ->
  exists bs,
    Client.filterByTag toLowerCase remote apiBase tag w
    = (Returns bs, sent (GetBounties apiBase) w)
    /\ sublist bs listing
    /\ (forall b, b ∈ bs <->
                  b ∈ listing
                  /\ Bounty.title b <> EmptyString
                  /\ exists bt, bt ∈ Bounty.tags b /\ toLowerCase bt = toLowerCase tag)
    /\ (forall b, b ∈ bs -> Bounty.tags b <> []).
Proof.
  intros Hd. unfold Client.filterByTag, await. rewrite client_listBounties_unfold, Hd.
  eexists. split; [reflexivity|].
  assert (Hiff : forall b,
             b ∈ List.filter (Client.tagged toLowerCase (toLowerCase tag))
                   (List.filter (fun b => JS.nonempty (Bounty.title b)) listing) <->
             b ∈ listing
             /\ Bounty.title b <> EmptyString
             /\ exists bt, bt ∈ Bounty.tags b /\ toLowerCase bt = toLowerCase tag).
  { intros b. rewrite !list_elem_of_In, !filter_In, nonempty_iff.
    unfold Client.tagged. rewrite existsb_exists.
    split.
    - intros [[Hb Ht] (bt & Hbt & He)]. apply String.eqb_eq in He.
      split; [done|]. split; [done|]. exists bt. by rewrite list_elem_of_In.
    - intros (Hb & Ht & bt & Hbt & He). split; [done|].
      exists bt. rewrite <- list_elem_of_In. split; [done|]. by apply String.eqb_eq. }
  split; [etrans; apply sublist_List_filter|]. split; [exact Hiff|].
  intros b (_ & _ & bt & Hbt & _)%Hiff Hnil. rewrite Hnil in Hbt.
  by apply elem_of_nil in Hbt.
Qed.

Lemma filterByTag_matches_whole_tags_witness :
  let rusty := Bounty.mk "8" "Port to Rust" EmptyString "open" "1" EmptyString
                 ["rust"; "cli"] None None None in
  let remote := Sample.scripted [Case.bug; rusty] [] (Throws "down") in
  exists bs,
    fst (Client.filterByTag (fun s => s) remote DEFAULT_API_BASE "rust" initial_world)
    = Returns bs
    /\ rusty ∈ bs /\ (Case.bug ∉ bs).
Proof.
  intros rusty remote.
  destruct (filterByTag_matches_whole_tags (fun s => s) remote DEFAULT_API_BASE "rust"
              initial_world [Case.bug; rusty] eq_refl) as (bs & E & _ & Hiff & Htags).
  exists bs. rewrite E. split; [reflexivity|]. split.
  - apply Hiff. split; [right; left|]. split; [discriminate|].
    exists "rust". split; [left | reflexivity].
  - intros Hb. by apply (Htags _ Hb).
Defined.

(** ** Whose requests the agent sends *)

#[local] Instance only_own_preorder config : PreOrder (only_own config).
Proof.
  split.
  - intros w e He. by left.
  - intros w1 w2 w3 H12 H23 e He. destruct (H23 e He) as [H|H]; [by apply H12|by right].
Qed.

Section Own.

Context (host : Host) (remote : Remote) (config : Config).

Lemma own_fetch {T : Type} (answer : list Event -> Outcome (Response T)) r :
  own config (Fetch r) -> keeps (only_own config) (fetch answer r).
Proof. intros Hr w e. simpl. intros [->|He]%elem_of_cons; [by right|by left]. Qed.

Lemma own_modify f : keeps (only_own config) (modify_state f).
Proof. intros w e He. by left. Qed.

Lemma own_request {T : Type} (answer : list Event -> Outcome (Response T)) r :
  own config (Fetch r) -> keeps (only_own config) (request answer r).
Proof. intros Hr. unfold request. repeat keeps_step. by apply own_fetch. Qed.

Lemma own_chat messages : keeps (only_own config) (chat remote config messages).
Proof. unfold chat. repeat keeps_step. by apply own_fetch. Qed.

Lemma own_discoverBounties : keeps (only_own config) (discoverBounties remote config).
Proof.
  unfold discoverBounties, listOpenBounties, listBounties. repeat keeps_step.
  by apply own_request.
Qed.

Lemma own_evaluateBounty bounty :
  keeps (only_own config) (evaluateBounty host remote config bounty).
Proof. unfold evaluateBounty. repeat keeps_step. apply own_chat. Qed.

Lemma own_claimBounty id : keeps (only_own config) (claimBounty remote config id).
Proof.
  unfold claimBounty, client_claimBounty. repeat keeps_step; try apply own_modify.
  by apply own_request.
Qed.

Lemma own_submitWork id submission proof :
  keeps (only_own config) (submitWork remote config id submission proof).
Proof.
  unfold submitWork, client_submitBounty. repeat keeps_step; try apply own_modify.
  by apply own_request.
Qed.

Lemma own_evaluate_loop batch evaluations :
  keeps (only_own config) (evaluate_loop host remote config batch evaluations).
Proof.
  revert evaluations. induction batch as [|b batch IH]; intros evaluations; simpl;
    repeat keeps_step.
  - apply own_evaluateBounty.
  - apply own_modify.
  - apply IH.
Qed.

Lemma own_runCycle : keeps (only_own config) (runCycle host remote config).
Proof.
  unfold runCycle. repeat keeps_step.
  - apply own_discoverBounties.
  - apply own_evaluate_loop.
  - apply keeps_for_of; [apply _|]. intros e _.
    unfold claim_body, claim_work_submit. repeat keeps_step.
    + apply own_claimBounty.
    + apply own_chat.
    + apply own_submitWork.
Qed.

Lemma own_sleep : keeps (only_own config) (sleep remote (Config.pollInterval config)).
Proof.
  intros w e. rewrite sleep_unfold. simpl.
  intros [->|He]%elem_of_cons; [by right|by left].
Qed.

Lemma own_loop fuel : keeps (only_own config) (loop host remote config fuel).
Proof.
  induction fuel as [|fuel IH]; simpl; repeat keeps_step.
  - apply own_runCycle.
  - apply own_sleep.
  - apply IH.
Qed.

Lemma own_perform w op : only_own config w (perform host remote config w op).
Proof.
  destruct op; simpl.
  - apply own_discoverBounties.
  - apply own_evaluateBounty.
  - apply own_claimBounty.
  - apply own_chat.
  - apply own_submitWork.
  - apply own_runCycle.
  - unfold startLoop. apply keeps_await; [apply _ | apply keeps_get_state, _ |].
    intros s. repeat keeps_step; [apply own_modify | apply own_loop].
  - apply own_modify.
  - reflexivity.
Qed.

End Own.

(** X17: whatever operations of an agent are called, every request sent
    carries the agent's own configuration: listing, claim and submit
    requests go to the base address of its client, claims and submits name
    its wallet address, chat requests carry its credential and model, and
    every wait lasts its poll interval.  The agent built by [main] always
    talks to the default base address. *)
Theorem agent_sends_only_its_own_requests host remote config w ops :
  (forall e,
      e ∈ World.history (perform_all host remote config w ops) ->
      e ∈ World.history w \/ own config e)
  /\ (forall env apiKey wallet skills,
         client (constructor (main_config host env apiKey wallet skills))
         = DEFAULT_API_BASE).
Proof.
  split; [|reflexivity].
  unfold perform_all. revert w. induction ops as [|op ops IH]; intros w; simpl.
  - intros e He. by left.
  - intros e He. destruct (IH _ e He) as [H|H]; [|by right].
    by apply (own_perform host remote config w op).
Qed.

Lemma agent_sends_only_its_own_requests_witness :
  let remote :=
    Case.picky [Case.bug] [Sample.says Sample.accept_json; Sample.says "All done."]
      (Throws "down") true true in
  let w :=
    perform_all Sample.host remote (Sample.config 100 false) initial_world
      [call_runCycle; call_startLoop 1] in
  Forall (own (Sample.config 100 false)) (World.history w).
Proof.
  intros remote w. apply Forall_forall. intros e He.
  destruct (proj1 (agent_sends_only_its_own_requests Sample.host remote
                     (Sample.config 100 false) initial_world
                     [call_runCycle; call_startLoop 1]) _ He) as [H|H].
  - by apply elem_of_nil in H.
  - exact H.
Defined.

(** ** The entry point *)

Lemma startLoop_returns host remote config fuel w :
  exists status w', startLoop host remote config fuel w = (Returns status, w').
Proof.
  rewrite startLoop_unfold.
  destruct (AgentState.isRunning (World.state w)); [by eexists _, _|].
  apply loop_returns.
Qed.

(** X18: [main] exits with code 1 before it does anything, whatever the
    mode and the other variables, when the credential or the wallet address
    is unset or empty; when both are set, a run in the modes "once" and
    "discover" first sends the listing request to the default base
    address. *)
Theorem main_needs_both_credentials
    host trim remote env OPENROUTER_API_KEY WALLET_ADDRESS SKILLS argv2 fuel :
  let ending :=
    main host trim remote env OPENROUTER_API_KEY WALLET_ADDRESS SKILLS argv2 fuel in
  (JS.or_string OPENROUTER_API_KEY EmptyString = EmptyString
   \/ JS.or_string WALLET_ADDRESS EmptyString = EmptyString ->
   ending = (exit_1, initial_world))
  /\ (JS.or_string OPENROUTER_API_KEY EmptyString <> EmptyString ->
      JS.or_string WALLET_ADDRESS EmptyString <> EmptyString ->
      argv2 = Some "once" \/ argv2 = Some "discover" ->
      exists h, World.history (snd ending) = h ++ [Fetch (GetBounties DEFAULT_API_BASE)]).
Proof.
  intros ending. unfold ending, main. split.
  - destruct OPENROUTER_API_KEY as [[|c k]|], WALLET_ADDRESS as [[|d v]|]; simpl;
      try reflexivity; intros [H|H]; discriminate.
  - destruct OPENROUTER_API_KEY as [[|c k]|], WALLET_ADDRESS as [[|d v]|]; simpl;
      try congruence.
    intros _ _ [-> | ->]; simpl; unfold run_to_end.
    + match goal with |- context [runCycle ?h ?r ?c initial_world] =>
        pose proof (runCycle_steps h r c initial_world) as Hs; set (cfg := c) in *
      end.
      assert (Hl : exists h, World.history (snd (runCycle host remote cfg initial_world))
                             = h ++ [Fetch (GetBounties DEFAULT_API_BASE)]).
      { rewrite Hs. unfold await.
        destruct (steps_1_2_returns host remote cfg initial_world)
          as [[m E]|(bs & evs & w2 & Ed & E & _)]; rewrite E; simpl.
        - by exists [].
        - assert (H2 : later (sent (GetBounties (client cfg)) initial_world) w2).
          { unfold steps_1_2, await in E. rewrite Ed in E.
            pose proof (keeps_evaluate_loop host remote cfg later (fun _ => True)
                          (fun _ => True) (firstn 5 bs) [] (fun _ _ => I)
                          (sent (GetBounties (client cfg)) initial_world)) as H.
            by rewrite E in H. }
          assert (H3 : later w2 (snd (for_of (List.filter confident evs)
                                        (claim_body host remote cfg) w2))).
          { apply keeps_for_of; [apply _|]. intros e _.
            by apply (keeps_claim_body host remote cfg later (fun _ => True)
                        (fun _ => True)). }
          destruct (transitivity H2 H3) as [_ [h Hh]]. exists h. exact Hh. }
      destruct Hl as [h Hh]. exists h.
      by destruct (runCycle host remote cfg initial_world) as [[[]|m] w'].
    + exists []. unfold Client.listOpenBounties, await.
      rewrite client_listBounties_unfold.
      by destruct (delivered _).
Qed.

Lemma main_needs_both_credentials_witness :
  main Sample.host (fun s => s) (Sample.scripted [Case.bug] [] (Throws "down"))
    (Env.mk None None None None) (Some "key") (Some EmptyString) None (Some "once") 3
  = (exit_1, initial_world).
Proof.
  exact (proj1 (main_needs_both_credentials Sample.host (fun s => s)
                  (Sample.scripted [Case.bug] [] (Throws "down"))
                  (Env.mk None None None None) (Some "key") (Some EmptyString) None
                  (Some "once") 3) (or_intror eq_refl)).
Defined.

(** X19: with both credentials set, the mode decides what a failure does.
    In the mode "once" a cycle that throws ends the process with code 1; in
    the mode "discover" the one listing request is all that is sent, to the
    default base address, and the agent's state is never touched; any other
    mode, or none, is the loop, which never ends the process with code 1. *)
Theorem main_is_fatal_only_outside_the_loop
    host trim remote env apiKey wallet SKILLS argv2 fuel :
  JS.nonempty apiKey = true ->
  JS.nonempty wallet = true ->
  let config := constructor (main_config host env apiKey wallet (main_skills trim SKILLS)) in
  let ending := main host trim remote env (Some apiKey) (Some wallet) SKILLS argv2 fuel in
  (argv2 = Some "once" ->
   snd ending = snd (runCycle host remote config initial_world)
   /\ (fst ending = exit_1 <->
       exists m, fst (runCycle host remote config initial_world) = Throws m))
  /\ (argv2 = Some "discover" ->
      snd ending = World.mk initial_state [Fetch (GetBounties DEFAULT_API_BASE)])
  /\ (JS.or_string argv2 "loop" <> "once" ->
      JS.or_string argv2 "loop" <> "discover" ->
      fst ending <> exit_1
      /\ snd ending = snd (startLoop host remote config fuel initial_world)).
Proof.
  intros Hk Hw config ending. unfold ending, main. rewrite Hk, Hw. simpl andb. cbv iota.
  fold config. split; [|split].
  - intros ->. simpl. unfold run_to_end.
    destruct (runCycle host remote config initial_world) as [[[]|m] w']; simpl.
    + split; [reflexivity|]. split; [discriminate|]. by intros [m [=]].
    + split; [reflexivity|]. split; [by exists m|done].
  - intros ->. simpl. unfold run_to_end, Client.listOpenBounties, await.
    rewrite client_listBounties_unfold. by destruct (delivered _).
  - intros Hnot1 Hnot2.
    destruct (String.eqb (JS.or_string argv2 "loop") "once") eqn:E1;
      [by apply String.eqb_eq in E1|].
    destruct (String.eqb (JS.or_string argv2 "loop") "discover") eqn:E2;
      [by apply String.eqb_eq in E2|].
    unfold run_to_end.
    destruct (startLoop_returns host remote config fuel initial_world)
      as (status & w' & E). rewrite E. simpl. split; [|reflexivity].
    by destruct status.
Qed.

Lemma main_is_fatal_only_outside_the_loop_witness :
  let remote :=
    {| Remote.bounties :=
         fun _ => Returns (Response.mk false 503%N "maintenance" (Throws "no body"));
       Remote.mutation := fun _ => Throws "down";
       Remote.completion := fun _ => Throws "down";
       Remote.stop_requested := fun _ => false |} in
  let env := Env.mk None None None None in
  fst (main Sample.host (fun s => s) remote env (Some "key") (Some Sample.wallet) None
         (Some "once") 3) = exit_1
  /\ fst (main Sample.host (fun s => s) remote env (Some "key") (Some Sample.wallet) None
            (Some "hunt") 3) <> exit_1.
Proof.
  intros remote env. split.
  - apply (proj1 (main_is_fatal_only_outside_the_loop Sample.host (fun s => s) remote env
                    "key" Sample.wallet None (Some "once") 3 eq_refl eq_refl)); [reflexivity|].
    by exists "Bounty API 503: maintenance".
  - apply (proj2 (proj2 (main_is_fatal_only_outside_the_loop Sample.host (fun s => s)
                           remote env "key" Sample.wallet None (Some "hunt") 3
                           eq_refl eq_refl))); discriminate.
Defined.

(** ** A dry run, as a whole *)

#[local] Instance read_only_preorder : PreOrder read_only.
Proof.
  split.
  - intros w e He _. exact He.
  - intros w1 w2 w3 H12 H23 e He Hm. apply H12; [|exact Hm]. by apply H23.
Qed.

Section DryRun.

Context (host : Host) (remote : Remote) (config : Config).
Hypothesis dry : Config.dryRun config = true.

Lemma dry_fetch {T : Type} (answer : list Event -> Outcome (Response T)) r :
  is_mutation (Fetch r) = false -> keeps read_only (fetch answer r).
Proof.
  intros Hr w e. simpl. intros [->|He]%elem_of_cons Hm; [congruence|exact He].
Qed.

Lemma dry_modify f : keeps read_only (modify_state f).
Proof. intros w e He _. exact He. Qed.

Lemma dry_chat messages : keeps read_only (chat remote config messages).
Proof. unfold chat. repeat keeps_step. by apply dry_fetch. Qed.

Lemma dry_discoverBounties : keeps read_only (discoverBounties remote config).
Proof.
  unfold discoverBounties, listOpenBounties, listBounties, request. repeat keeps_step.
  by apply dry_fetch.
Qed.

Lemma dry_evaluateBounty bounty : keeps read_only (evaluateBounty host remote config bounty).
Proof. unfold evaluateBounty. repeat keeps_step. apply dry_chat. Qed.

Lemma dry_claimBounty id : keeps read_only (claimBounty remote config id).
Proof using dry. unfold claimBounty. rewrite dry. repeat keeps_step. apply dry_modify. Qed.

Lemma dry_submitWork id submission proof :
  keeps read_only (submitWork remote config id submission proof).
Proof using dry. unfold submitWork. rewrite dry. repeat keeps_step. apply dry_modify. Qed.

Lemma dry_evaluate_loop batch evaluations :
  keeps read_only (evaluate_loop host remote config batch evaluations).
Proof.
  revert evaluations. induction batch as [|b batch IH]; intros evaluations; simpl;
    repeat keeps_step.
  - apply dry_evaluateBounty.
  - apply dry_modify.
  - apply IH.
Qed.

Lemma dry_runCycle : keeps read_only (runCycle host remote config).
Proof using dry.
  unfold runCycle. repeat keeps_step.
  - apply dry_discoverBounties.
  - apply dry_evaluate_loop.
  - apply keeps_for_of; [apply _|]. intros e _.
    unfold claim_body, claim_work_submit. repeat keeps_step.
    + apply dry_claimBounty.
    + apply dry_chat.
    + apply dry_submitWork.
Qed.

Lemma dry_loop fuel : keeps read_only (loop host remote config fuel).
Proof using dry.
  induction fuel as [|fuel IH]; simpl; repeat keeps_step.
  - apply dry_runCycle.
  - intros w e. rewrite sleep_unfold. simpl.
    intros [->|He]%elem_of_cons Hm; [discriminate|exact He].
  - apply IH.
Qed.

Lemma dry_perform w op : read_only w (perform host remote config w op).
Proof using dry.
  destruct op; simpl.
  - apply dry_discoverBounties.
  - apply dry_evaluateBounty.
  - apply dry_claimBounty.
  - apply dry_chat.
  - apply dry_submitWork.
  - apply dry_runCycle.
  - unfold startLoop. apply keeps_await; [apply _ | apply keeps_get_state, _ |].
    intros s. repeat keeps_step; [apply dry_modify | apply dry_loop].
  - apply dry_modify.
  - reflexivity.
Qed.

End DryRun.

(** X20: an agent configured for a dry run never sends a claim or a submit
    request, whatever operations are called and however often the loop
    runs: the only requests are listings and chat completions, although the
    identifiers enter [claimed] and [completed] as on the live path. *)
Theorem dry_run_never_changes_the_listing_service host remote config w ops :
  Config.dryRun config = true ->
  forall e,
    e ∈ World.history (perform_all host remote config w ops) ->
    is_mutation e = true ->
    e ∈ World.history w.
Proof.
  intros Hdry. unfold perform_all. revert w.
  induction ops as [|op ops IH]; intros w e He Hm; simpl in He; [exact He|].
  apply (dry_perform host remote config Hdry w op); [|exact Hm].
  by apply IH.
Qed.

Lemma dry_run_never_changes_the_listing_service_witness :
  let remote :=
    Sample.scripted [Case.bug] [Sample.says Sample.accept_json; Sample.says "All done."]
      (Throws "down") in
  let w :=
    perform_all Sample.host remote (Sample.config 100 true) initial_world
      [call_runCycle; call_startLoop 2] in
  "1" ∈ completed w
  /\ forall e, e ∈ World.history w -> is_mutation e = false.
Proof.
  intros remote w. split; [apply (bool_decide_unpack _); vm_compute; reflexivity|].
  intros e He. destruct (is_mutation e) eqn:Hm; [|reflexivity].
  pose proof (dry_run_never_changes_the_listing_service Sample.host remote
                (Sample.config 100 true) initial_world
                [call_runCycle; call_startLoop 2] eq_refl e He Hm) as H.
  by apply elem_of_nil in H.
Defined.
